(** * GuardianCane: the smart-cane sketch [code.ino], embedded and verified

    The sketch is an Arduino program: [setup] runs once, then [loop]
    runs for ever.  Every call into the Arduino core or into a driver
    library (Serial, Wire, DHT, MPU6050, SSD1306) is recorded as an
    [event]; the values they hand back are inputs of the model.  The C++
    arithmetic of the sketch ([int], [long], [unsigned long], [float],
    [double]) is written out, with the widths that depend on the board
    taken from a [Target.t]. *)

From Stdlib Require Import ZArith QArith Qpower Qabs Bool List String Lia Lqa.
From Stdlib Require Import SpecFloat.
Import ListNotations.

Local Open Scope Z_scope.

(** ** Boards

    The width of [int] and the format of [double] are fixed by the
    Arduino core the sketch is built with, not by the sketch.  The ATmega
    boards (Uno, Nano, Mega) have a 16-bit [int] and a [double] that is a
    binary32; the 32-bit cores have a 32-bit [int] and a binary64
    [double].  [long] and [unsigned long] have 32 bits and [float] is a
    binary32 on both. *)
Module Target.

Inductive t := AVR8 | Core32.

Definition int_bits (T : t) : Z :=
  match T with AVR8 => 16 | Core32 => 32 end.

Definition long_bits : Z := 32.

Definition double_prec (T : t) : Z :=
  match T with AVR8 => 24 | Core32 => 53 end.

Definition double_emax (T : t) : Z :=
  match T with AVR8 => 128 | Core32 => 1024 end.

End Target.

(** ** Machine integers *)
Module CInt.

(** Value of [z] stored in an unsigned integer of [w] bits. *)
Definition wrap_unsigned (w z : Z) : Z := z mod 2 ^ w.

(** Value of [z] stored in a two's complement integer of [w] bits. *)
Definition wrap_signed (w z : Z) : Z :=
  (z + 2 ^ (w - 1)) mod 2 ^ w - 2 ^ (w - 1).

Definition in_int16 (z : Z) : Prop := -32768 <= z <= 32767.

Definition in_uint32 (z : Z) : Prop := 0 <= z < 2 ^ 32.

(** [a - b] on [unsigned long]. *)
Definition ulong_sub (a b : Z) : Z := wrap_unsigned Target.long_bits (a - b).

(** [unsigned long] converted to [long]. *)
Definition ulong_to_long (a : Z) : Z := wrap_signed Target.long_bits a.

Section IntArith.
Variable T : Target.t.

Definition int_neg (a : Z) : Z := wrap_signed (Target.int_bits T) (- a).

Definition int_add (a b : Z) : Z := wrap_signed (Target.int_bits T) (a + b).

(** The core's macro [#define abs(x) ((x)>0?(x):-(x))], applied to an
    operand that has been promoted to [int]. *)
Definition abs (x : Z) : Z := if 0 <? x then x else int_neg x.

Definition int_to_long (a : Z) : Z := wrap_signed Target.long_bits a.
End IntArith.

End CInt.

(** ** Floating point

    IEEE 754 binary formats, on the executable specification of the
    standard library: a datum is a [spec_float], operations round to
    nearest even. *)
Module FP.

Definition of_Z (prec emax z : Z) : spec_float :=
  binary_normalize prec emax z 0 false.

(** Conversion between formats: the datum is rounded to the
    destination format. *)
Definition convert (prec emax : Z) (x : spec_float) : spec_float :=
  match x with
  | S754_finite s m e => binary_round prec emax s m e
  | _ => x
  end.

(** A decimal literal [n / d]: the correctly rounded quotient of two
    integers the format holds exactly. *)
Definition literal (prec emax n d : Z) : spec_float :=
  SFdiv prec emax (of_Z prec emax n) (of_Z prec emax d).

Definition isnan (x : spec_float) : bool :=
  match x with S754_nan => true | _ => false end.

(** The extended reals a datum other than NaN denotes. *)
Inductive ereal := NegInf | Fin (q : Q) | PosInf.

Definition elt (a b : ereal) : Prop :=
  match a, b with
  | NegInf, NegInf => False
  | NegInf, _ => True
  | Fin _, NegInf => False
  | Fin x, Fin y => (x < y)%Q
  | Fin _, PosInf => True
  | PosInf, _ => False
  end.

Definition ele (a b : ereal) : Prop :=
  match a, b with
  | NegInf, _ => True
  | Fin _, NegInf => False
  | Fin x, Fin y => (x <= y)%Q
  | Fin _, PosInf => True
  | PosInf, PosInf => True
  | PosInf, _ => False
  end.

Definition SF2Q (s : bool) (m : positive) (e : Z) : Q :=
  (inject_Z (cond_Zopp s (Zpos m)) * 2 ^ e)%Q.

Definition value (x : spec_float) : option ereal :=
  match x with
  | S754_nan => None
  | S754_zero _ => Some (Fin 0)
  | S754_infinity s => Some (if s then NegInf else PosInf)
  | S754_finite s m e => Some (Fin (SF2Q s m e))
  end.

(** [x < y] on what the two data denote; false as soon as one is NaN. *)
Definition lt_value (x y : spec_float) : Prop :=
  match value x, value y with
  | Some a, Some b => elt a b
  | _, _ => False
  end.

(** [x <= y] on what the two data denote; false as soon as one is NaN. *)
Definition le_value (x y : spec_float) : Prop :=
  match value x, value y with
  | Some a, Some b => ele a b
  | _, _ => False
  end.

(** How [SFcompare] orders two positive finite data. *)
Definition magnitude_compare
  (m1 : positive) (e1 : Z) (m2 : positive) (e2 : Z) : comparison :=
  match e1 ?= e2 with
  | Lt => Lt
  | Gt => Gt
  | Eq => Pos.compare_cont Eq m1 m2
  end.

End FP.

(** The type [float] of the sketch. *)
Module F32.

Definition prec : Z := 24.
Definition emax : Z := 128.

Definition float := spec_float.

Definition valid (x : float) : bool := valid_binary prec emax x.

Definition of_int (z : Z) : float := FP.of_Z prec emax z.

Definition ltb (x y : float) : bool := SFltb x y.
Definition gtb (x y : float) : bool := SFltb y x.

Definition of_double (x : spec_float) : float := FP.convert prec emax x.

End F32.

(** ** The sketch *)
Module Sketch.

Import Target CInt.
Local Open Scope string_scope.
Local Open Scope list_scope.
Local Open Scope Z_scope.

(** *** Pins, thresholds, timing *)

Inductive pin :=
  DHTPIN | TRIG_PIN | ECHO_PIN | BUZZER_PIN | LED_RED | BUTTON_PIN | LDR_PIN.

Inductive level := LOW | HIGH.
Inductive pin_mode := INPUT | OUTPUT | INPUT_PULLUP.
Inductive oled_color := SSD1306_WHITE.

Definition DISTANCE_THRESHOLD : Z := 30.
Definition TEMP_MIN : Z := 0.
Definition TEMP_MAX : Z := 45.
Definition LIGHT_THRESHOLD : Z := 400.
Definition HUMIDITY_MIN : Z := 30.
Definition HUMIDITY_MAX : Z := 60.
Definition ACCEL_THRESHOLD : Z := 15000.
Definition CHECK_INTERVAL : Z := 500.

(** *** Calls that leave the sketch *)

Inductive printable :=
| PStr (s : string)
| PFloat (x : F32.float)
| PInt (n : Z)
| PLong (n : Z).

Inductive oled_call :=
| oled_clearDisplay
| oled_setTextSize (n : Z)
| oled_setTextColor (c : oled_color)
| oled_setCursor (x y : Z)
| oled_print (v : printable)
| oled_println (v : printable)
| oled_drawLine (x0 y0 x1 y1 : Z) (c : oled_color)
| oled_display.

Inductive event :=
| Serial_begin (baud : Z)
| Serial_print (v : printable)
| Serial_println (v : printable)
| Wire_begin
| dht_begin
| dht_readTemperature
| dht_readHumidity
| mpu_initialize
| mpu_testConnection
| mpu_getAcceleration
| pinMode (p : pin) (m : pin_mode)
| digitalRead (p : pin)
| digitalWrite (p : pin) (l : level)
| analogRead (p : pin)
| pulseIn (p : pin) (l : level) (timeout : Z)
| delay (ms : Z)
| delayMicroseconds (us : Z)
| millis
| tone (p : pin) (frequency duration : Z)
| noTone (p : pin)
| display_begin
| display (c : oled_call).

(** *** What the environment answers *)

(** Answers during [setup]. *)
Record boot := {
  display_begin_ok : bool;
  mpu_testConnection_ok : bool
}.

(** Answers during one pass of [loop], in the order they are asked
    for.  The sensor answers are only consumed by a pass that gets
    beyond the early [return]. *)
Record readings := {
  button : level;
  millis_check : Z;
  millis_stamp : Z;
  dht_temperature : F32.float;
  dht_humidity : F32.float;
  echo : Z;
  ldr : Z;
  mpu_ax : Z;
  mpu_ay : Z;
  mpu_az : Z
}.

(** *** Globals *)

Record globals := {
  lastCheck : Z;
  buttonPressed : bool
}.

Definition globals_init : globals :=
  {| lastCheck := 0; buttonPressed := false |}.

(** *** [getDistance] *)

Definition getDistance_calls : list event :=
  [ digitalWrite TRIG_PIN LOW; delayMicroseconds 2;
    digitalWrite TRIG_PIN HIGH; delayMicroseconds 10;
    digitalWrite TRIG_PIN LOW;
    pulseIn ECHO_PIN HIGH 30000 ].

Section Board.
Variable T : Target.t.

(** [pulse] is what [pulseIn] returned. *)
Definition getDistance (pulse : Z) : F32.float :=
  let duration := ulong_to_long pulse in
  if duration =? 0 then F32.of_int (-1)
  else
    let p := double_prec T in
    let m := double_emax T in
    F32.of_double
      (SFdiv p m
         (SFmul p m (FP.of_Z p m duration) (FP.literal p m 34 1000))
         (FP.of_Z p m 2)).

(** *** Alert evaluation *)

Definition totalAccel (ax ay az : Z) : Z :=
  int_to_long (int_add T (int_add T (abs T ax) (abs T ay)) (abs T az)).

End Board.

Definition distanceAlert (distance : F32.float) : bool :=
  F32.gtb distance (F32.of_int 0)
  && F32.ltb distance (F32.of_int DISTANCE_THRESHOLD).

Definition humidityAlert (humidity : F32.float) : bool :=
  F32.ltb humidity (F32.of_int HUMIDITY_MIN)
  || F32.gtb humidity (F32.of_int HUMIDITY_MAX).

Definition tempAlert (temperature : F32.float) : bool :=
  negb (FP.isnan temperature)
  && (F32.ltb temperature (F32.of_int TEMP_MIN)
      || F32.gtb temperature (F32.of_int TEMP_MAX)).

Definition lightAlert (lightLevel : Z) : bool :=
  lightLevel <? LIGHT_THRESHOLD.

Definition motionAlert (totalAccel : Z) : bool :=
  ACCEL_THRESHOLD <? totalAccel.

(** The locals of [loop] once the sensors have been read. *)
Record snapshot := {
  temperature : F32.float;
  humidity : F32.float;
  distance : F32.float;
  lightLevel : Z;
  accelSum : Z
}.

Definition alertTriggered (pressed : bool) (s : snapshot) : bool :=
  pressed
  || distanceAlert (distance s)
  || tempAlert (temperature s)
  || lightAlert (lightLevel s)
  || humidityAlert (humidity s)
  || motionAlert (accelSum s).

(** *** The body of [if (alertTriggered)] *)

Definition when (b : bool) (l : list event) : list event :=
  if b then l else [].

Definition newline : string := String (Ascii.ascii_of_nat 10) EmptyString.

Definition alert_on (s : snapshot) : list event :=
  [ digitalWrite LED_RED HIGH;
    tone BUZZER_PIN 1500 300;
    display oled_clearDisplay;
    display (oled_setTextSize 1);
    display (oled_setTextColor SSD1306_WHITE);
    display (oled_setCursor 0 0);
    display (oled_println (PStr "SMART CANE ALERT"));
    display (oled_drawLine 0 10 127 10 SSD1306_WHITE);
    display (oled_setCursor 0 15);
    display (oled_print (PStr "Temp: "));
    display (oled_print (PFloat (temperature s)));
    display (oled_println (PStr " C"));
    display (oled_setCursor 0 25);
    display (oled_print (PStr "Hum:  "));
    display (oled_print (PFloat (humidity s)));
    display (oled_println (PStr " %"));
    display (oled_setCursor 0 35);
    display (oled_print (PStr "Dist: "));
    display (oled_print (PFloat (distance s)));
    display (oled_println (PStr " cm"));
    display (oled_setCursor 0 45);
    display (oled_print (PStr "Light: "));
    display (oled_print (PInt (lightLevel s)));
    display oled_display ].

Definition alert_report (pressed : bool) (s : snapshot) : list event :=
  [ Serial_println (PStr "===== SMART CANE ALERT =====") ]
  ++ when pressed
       [ Serial_println (PStr "🔘 Manual Button Triggered") ]
  ++ when (distanceAlert (distance s))
       [ Serial_println (PStr "⚠️ Obstacle detected nearby!") ]
  ++ when (tempAlert (temperature s))
       [ Serial_println (PStr "⚠️ Temperature out of range!") ]
  ++ when (lightAlert (lightLevel s))
       [ Serial_println (PStr "⚠️ Low light detected!") ]
  ++ when (humidityAlert (humidity s))
       [ Serial_println (PStr "⚠️ Humidity uncomfortable!") ]
  ++ when (motionAlert (accelSum s))
       [ Serial_println (PStr "⚠️ Fall detected!") ]
  ++ [ Serial_print (PStr "Temperature: ");
       Serial_print (PFloat (temperature s));
       Serial_println (PStr " °C");
       Serial_print (PStr "Humidity: ");
       Serial_print (PFloat (humidity s));
       Serial_println (PStr " %");
       Serial_print (PStr "Distance: ");
       Serial_print (PFloat (distance s));
       Serial_println (PStr " cm");
       Serial_print (PStr "Light Level: ");
       Serial_println (PInt (lightLevel s));
       Serial_print (PStr "Accel Sum: ");
       Serial_println (PLong (accelSum s));
       Serial_println
         (PStr (String.append "============================" newline)) ].

Definition alert_off : list event :=
  [ delay 2000;
    noTone BUZZER_PIN;
    digitalWrite LED_RED LOW;
    display oled_clearDisplay;
    display oled_display ].

Definition present (pressed : bool) (s : snapshot) : list event :=
  alert_on s ++ alert_report pressed s ++ alert_off.

(** *** [loop] *)

Definition button_low (r : readings) : bool :=
  match button r with LOW => true | HIGH => false end.

(** [buttonPressed] once the button has been looked at. *)
Definition pending (g : globals) (r : readings) : bool :=
  if button_low r then true else buttonPressed g.

Definition button_calls (r : readings) : list event :=
  digitalRead BUTTON_PIN :: when (button_low r) [ delay 100 ].

Definition checkNow (g : globals) (r : readings) : bool :=
  CHECK_INTERVAL <? ulong_sub (millis_check r) (lastCheck g).

(** The test of [if (!checkNow && !buttonPressed) return;]. *)
Definition early_return (g : globals) (r : readings) : bool :=
  negb (checkNow g r) && negb (pending g r).

Definition read_sensors_calls : list event :=
  [ dht_readTemperature; dht_readHumidity ]
  ++ getDistance_calls
  ++ [ analogRead LDR_PIN; mpu_getAcceleration ].

Section Pass.
Variable T : Target.t.

Definition read_sensors (r : readings) : snapshot :=
  {| temperature := dht_temperature r;
     humidity := dht_humidity r;
     distance := getDistance T (echo r);
     lightLevel := ldr r;
     accelSum := totalAccel T (mpu_ax r) (mpu_ay r) (mpu_az r) |}.

Definition loop (g : globals) (r : readings) : globals * list event :=
  let pressed := pending g r in
  if early_return g r then
    ({| lastCheck := lastCheck g; buttonPressed := pressed |},
     button_calls r ++ [ millis ])
  else
    let s := read_sensors r in
    ({| lastCheck := millis_stamp r; buttonPressed := false |},
     button_calls r ++ [ millis; millis ] ++ read_sensors_calls
     ++ when (alertTriggered pressed s) (present pressed s)).
End Pass.

(** *** [setup] *)

(** How a function leaves: it returns, or control stays for ever in a
    [while (true);]. *)
Inductive completion := Returns | NeverReturns.

Definition setup_init : list event :=
  [ Serial_begin 9600; Wire_begin;
    dht_begin; mpu_initialize;
    pinMode TRIG_PIN OUTPUT; pinMode ECHO_PIN INPUT;
    pinMode BUZZER_PIN OUTPUT; pinMode LED_RED OUTPUT;
    pinMode BUTTON_PIN INPUT_PULLUP; pinMode LDR_PIN INPUT;
    display_begin ].

Definition setup_welcome : list event :=
  [ display oled_clearDisplay;
    display (oled_setTextSize 1);
    display (oled_setTextColor SSD1306_WHITE);
    display (oled_setCursor 15 10);
    display (oled_println (PStr "SMART CANE v3.0"));
    display (oled_setCursor 20 25);
    display (oled_println (PStr "Initializing..."));
    display oled_display;
    delay 2500;
    display oled_clearDisplay;
    display oled_display ].

Definition setup_ready (b : boot) : list event :=
  [ mpu_testConnection;
    Serial_println
      (PStr (if mpu_testConnection_ok b
             then "MPU6050 connected successfully!"
             else "MPU6050 connection failed!"));
    Serial_println (PStr "Smart Cane Ready.");
    Serial_println (PStr "Press button or wait for alert.");
    Serial_println (PStr "----------------------------------") ].

Definition setup (b : boot) : list event * completion :=
  if negb (display_begin_ok b) then
    (setup_init ++ [ Serial_println (PStr "SSD1306 allocation failed!") ],
     NeverReturns)
  else
    (setup_init ++ setup_welcome ++ setup_ready b, Returns).

(** *** The program: [setup(); for (;;) loop();]

    One [step] is the call of [setup], one pass of [loop], or, once
    control is in the [while (true);] of [setup], one turn of it. *)

Inductive phase := PowerOn | Stuck | Running.

Record machine := {
  at_phase : phase;
  vars : globals
}.

Definition power_on : machine :=
  {| at_phase := PowerOn; vars := globals_init |}.

Definition step (T : Target.t) (b : boot) (r : readings) (m : machine)
  : machine * list event :=
  match at_phase m with
  | PowerOn =>
      let (calls, c) := setup b in
      ({| at_phase := match c with Returns => Running | NeverReturns => Stuck end;
          vars := vars m |}, calls)
  | Stuck => (m, [])
  | Running =>
      let (g, calls) := loop T (vars m) r in
      ({| at_phase := Running; vars := g |}, calls)
  end.

(** The machine and the calls made after [n] steps; [env k] answers
    the pass of [loop] that step [k] makes. *)
Fixpoint run (T : Target.t) (b : boot) (env : nat -> readings) (n : nat)
  : machine * list event :=
  match n with
  | O => (power_on, [])
  | S k =>
      let (m, done) := run T b env k in
      let (m', calls) := step T b (env k) m in
      (m', done ++ calls)
  end.

(** *** The indicators

    What the calls do to the LED, the buzzer and the OLED: the LED
    follows [digitalWrite]; the buzzer sounds from [tone] until
    [noTone] (that a tone with a duration falls silent on its own is
    left out, so the buzzer of the model is on at least as long as the
    real one); the OLED driver draws into a buffer, [clearDisplay]
    empties the buffer, [display()] copies it to the panel. *)

Record indicators := {
  led : level;
  buzzer : option Z;
  oled_buffer : list oled_call;
  oled_panel : list oled_call
}.

Definition draws (c : oled_call) : bool :=
  match c with
  | oled_print _ | oled_println _ | oled_drawLine _ _ _ _ _ => true
  | _ => false
  end.

Definition drive (h : indicators) (e : event) : indicators :=
  match e with
  | digitalWrite LED_RED l =>
      {| led := l; buzzer := buzzer h;
         oled_buffer := oled_buffer h; oled_panel := oled_panel h |}
  | tone BUZZER_PIN f _ =>
      {| led := led h; buzzer := Some f;
         oled_buffer := oled_buffer h; oled_panel := oled_panel h |}
  | noTone BUZZER_PIN =>
      {| led := led h; buzzer := None;
         oled_buffer := oled_buffer h; oled_panel := oled_panel h |}
  | display oled_clearDisplay =>
      {| led := led h; buzzer := buzzer h;
         oled_buffer := []; oled_panel := oled_panel h |}
  | display oled_display =>
      {| led := led h; buzzer := buzzer h;
         oled_buffer := oled_buffer h; oled_panel := oled_buffer h |}
  | display c =>
      {| led := led h; buzzer := buzzer h;
         oled_buffer := oled_buffer h ++ (if draws c then [ c ] else []);
         oled_panel := oled_panel h |}
  | _ => h
  end.

Definition settle (h : indicators) (calls : list event) : indicators :=
  fold_left drive calls h.

Definition all_clear (h : indicators) : Prop :=
  led h = LOW /\ buzzer h = None /\ oled_buffer h = [] /\ oled_panel h = [].

(** *** Sample answers of the environment *)

(** Nothing to report: 22 degrees, 45 percent, an echo of 5882
    microseconds (one metre), bright, at rest, 1000 ms after start. *)
Definition calm : readings :=
  {| button := HIGH;
     millis_check := 1000;
     millis_stamp := 1000;
     dht_temperature := F32.of_int 22;
     dht_humidity := F32.of_int 45;
     echo := 5882;
     ldr := 700;
     mpu_ax := 0; mpu_ay := 0; mpu_az := 0 |}.

(** As [calm], with an echo of 882 microseconds (15 cm). *)
Definition obstacle_near : readings :=
  {| button := HIGH;
     millis_check := 1000;
     millis_stamp := 1000;
     dht_temperature := F32.of_int 22;
     dht_humidity := F32.of_int 45;
     echo := 882;
     ldr := 700;
     mpu_ax := 100; mpu_ay := 100; mpu_az := 100 |}.

(** As [calm], 200 ms after start. *)
Definition too_soon : readings :=
  {| button := HIGH;
     millis_check := 200;
     millis_stamp := 200;
     dht_temperature := F32.of_int 22;
     dht_humidity := F32.of_int 45;
     echo := 5882;
     ldr := 700;
     mpu_ax := 0; mpu_ay := 0; mpu_az := 0 |}.

(** As [too_soon], with the button held down. *)
Definition button_down : readings :=
  {| button := LOW;
     millis_check := 300;
     millis_stamp := 300;
     dht_temperature := F32.of_int 22;
     dht_humidity := F32.of_int 45;
     echo := 5882;
     ldr := 700;
     mpu_ax := 0; mpu_ay := 0; mpu_az := 0 |}.

Definition lit : indicators :=
  {| led := HIGH; buzzer := Some 1500;
     oled_buffer := [ oled_println (PStr "SMART CANE ALERT") ];
     oled_panel := [ oled_println (PStr "SMART CANE ALERT") ] |}.

Definition dark : indicators :=
  {| led := LOW; buzzer := None; oled_buffer := []; oled_panel := [] |}.

(** As [calm], 600 ms after start. *)
Definition soon_after : readings :=
  {| button := HIGH;
     millis_check := 600;
     millis_stamp := 600;
     dht_temperature := F32.of_int 22;
     dht_humidity := F32.of_int 45;
     echo := 5882;
     ldr := 700;
     mpu_ax := 0; mpu_ay := 0; mpu_az := 0 |}.

(** The pass after [button_down] has presented its alert, 2200 ms
    later, with the button still held down. *)
Definition still_down : readings :=
  {| button := LOW;
     millis_check := 2500;
     millis_stamp := 2500;
     dht_temperature := F32.of_int 22;
     dht_humidity := F32.of_int 45;
     echo := 5882;
     ldr := 700;
     mpu_ax := 0; mpu_ay := 0; mpu_az := 0 |}.

(** A pass 901 ms after the clock has rolled over. *)
Definition after_rollover : readings :=
  {| button := HIGH;
     millis_check := 901;
     millis_stamp := 901;
     dht_temperature := F32.of_int 22;
     dht_humidity := F32.of_int 45;
     echo := 5882;
     ldr := 700;
     mpu_ax := 0; mpu_ay := 0; mpu_az := 0 |}.

(** Globals of a run whose last check was 100 ms before the rollover. *)
Definition before_rollover : globals :=
  {| lastCheck := 4294967196; buttonPressed := false |}.

(** *** Echo lengths checked one by one *)

Definition echo_lengths (n : nat) : list Z := map Z.of_nat (seq 0 n).

(** Does the obstacle alert of an echo of [pulse] microseconds agree
    with [1 <= pulse <= 1764]? *)
Definition echo_alert_agrees (T : Target.t) (pulse : Z) : bool :=
  Bool.eqb (distanceAlert (getDistance T pulse))
           ((1 <=? pulse) && (pulse <=? 1764)).

End Sketch.


(** * Properties *)

Import Sketch.

(** ** Comparison of binary32 data

    [SFcompare] looks at signs, exponents and mantissas; on data that
    are valid in the format this is the order of the numbers they
    denote. *)

Lemma digits2_pos_bounds (m : positive) :
  2 ^ (Zpos (digits2_pos m) - 1) <= Zpos m < 2 ^ Zpos (digits2_pos m).
Proof.
  induction m as [m IH | m IH |]; cbn [digits2_pos].
  - rewrite Pos2Z.inj_succ.
    replace (Z.succ (Z.pos (digits2_pos m)) - 1)
      with (Z.succ (Z.pos (digits2_pos m) - 1)) by lia.
    rewrite !Z.pow_succ_r by lia. lia.
  - rewrite Pos2Z.inj_succ.
    replace (Z.succ (Z.pos (digits2_pos m)) - 1)
      with (Z.succ (Z.pos (digits2_pos m) - 1)) by lia.
    rewrite !Z.pow_succ_r by lia. lia.
  - cbn. lia.
Qed.

Lemma Qpow2_pos (e : Z) : (0 < 2 ^ e)%Q.
Proof. apply Qpower_0_lt. reflexivity. Qed.

Lemma Qpow2_split (e1 e2 : Z) :
  e1 <= e2 -> (2 ^ e2 == inject_Z (2 ^ (e2 - e1)) * 2 ^ e1)%Q.
Proof.
  intros H.
  rewrite Zpower_Qpower by lia.
  rewrite <- Qpower_plus by (intro A; discriminate A).
  replace (e2 - e1 + e1) with e2 by lia. reflexivity.
Qed.

Lemma Qscale_lt (a b e1 e2 : Z) :
  e1 <= e2 ->
  (inject_Z a * 2 ^ e1 < inject_Z b * 2 ^ e2)%Q <-> a < b * 2 ^ (e2 - e1).
Proof.
  intros H.
  rewrite (Qpow2_split e1 e2 H), Qmult_assoc, <- inject_Z_mult.
  rewrite Qmult_lt_r by apply Qpow2_pos.
  rewrite <- Zlt_Qlt. reflexivity.
Qed.

Lemma Qscale_gt (a b e1 e2 : Z) :
  e1 <= e2 ->
  (inject_Z b * 2 ^ e2 < inject_Z a * 2 ^ e1)%Q <-> b * 2 ^ (e2 - e1) < a.
Proof.
  intros H.
  rewrite (Qpow2_split e1 e2 H), Qmult_assoc, <- inject_Z_mult.
  rewrite Qmult_lt_r by apply Qpow2_pos.
  rewrite <- Zlt_Qlt. reflexivity.
Qed.

Lemma bounded_canonical (m : positive) (e : Z) :
  bounded F32.prec F32.emax m e = true ->
  -149 <= e /\ Zpos (digits2_pos m) <= 24
  /\ (-149 < e -> Zpos (digits2_pos m) = 24).
Proof.
  unfold bounded, canonical_mantissa, fexp, emin, F32.prec, F32.emax.
  intros H. apply andb_true_iff in H. destruct H as [H _].
  apply Z.eqb_eq in H. lia.
Qed.

Lemma canonical_lt_exp (m1 m2 : positive) (e1 e2 : Z) :
  bounded F32.prec F32.emax m1 e1 = true ->
  bounded F32.prec F32.emax m2 e2 = true ->
  e1 < e2 -> Zpos m1 < Zpos m2 * 2 ^ (e2 - e1).
Proof.
  intros H1 H2 Hlt.
  destruct (bounded_canonical _ _ H1) as (L1 & D1 & _).
  destruct (bounded_canonical _ _ H2) as (_ & _ & D2).
  pose proof (digits2_pos_bounds m1) as [_ B1].
  pose proof (digits2_pos_bounds m2) as [B2 _].
  rewrite D2 in B2 by lia.
  assert (U : Zpos m1 < 2 ^ 24).
  { eapply Z.lt_le_trans; [exact B1 | apply Z.pow_le_mono_r; lia]. }
  assert (P : 2 ^ 1 <= 2 ^ (e2 - e1)) by (apply Z.pow_le_mono_r; lia).
  change (2 ^ (24 - 1)) with 8388608 in B2.
  change (2 ^ 24) with 16777216 in U.
  change (2 ^ 1) with 2 in P. nia.
Qed.

Lemma SF2Q_pos (m : positive) (e : Z) : (0 < FP.SF2Q false m e)%Q.
Proof.
  unfold FP.SF2Q, cond_Zopp.
  apply Qmult_lt_0_compat; [reflexivity | apply Qpow2_pos].
Qed.

Lemma SF2Q_opp (m : positive) (e : Z) :
  (FP.SF2Q true m e == - FP.SF2Q false m e)%Q.
Proof.
  unfold FP.SF2Q, cond_Zopp.
  change (inject_Z (- Z.pos m)) with (- inject_Z (Z.pos m))%Q. ring.
Qed.

Lemma magnitude_compare_Lt (m1 m2 : positive) (e1 e2 : Z) :
  bounded F32.prec F32.emax m1 e1 = true ->
  bounded F32.prec F32.emax m2 e2 = true ->
  FP.magnitude_compare m1 e1 m2 e2 = Lt <->
  (FP.SF2Q false m1 e1 < FP.SF2Q false m2 e2)%Q.
Proof.
  intros H1 H2. unfold FP.magnitude_compare, FP.SF2Q, cond_Zopp.
  destruct (Z.compare_spec e1 e2) as [E | L | G].
  - subst e2. change (Pos.compare_cont Eq m1 m2) with (Pos.compare m1 m2).
    rewrite Qscale_lt by lia. rewrite Z.sub_diag, Z.pow_0_r, Z.mul_1_r.
    rewrite Pos.compare_lt_iff. reflexivity.
  - rewrite Qscale_lt by lia.
    pose proof (canonical_lt_exp _ _ _ _ H1 H2 L). tauto.
  - rewrite Qscale_gt by lia.
    pose proof (canonical_lt_exp _ _ _ _ H2 H1 G).
    split; [discriminate | lia].
Qed.

Lemma magnitude_compare_Gt (m1 m2 : positive) (e1 e2 : Z) :
  bounded F32.prec F32.emax m1 e1 = true ->
  bounded F32.prec F32.emax m2 e2 = true ->
  FP.magnitude_compare m1 e1 m2 e2 = Gt <->
  (FP.SF2Q false m2 e2 < FP.SF2Q false m1 e1)%Q.
Proof.
  intros H1 H2. unfold FP.magnitude_compare, FP.SF2Q, cond_Zopp.
  destruct (Z.compare_spec e1 e2) as [E | L | G].
  - subst e2. change (Pos.compare_cont Eq m1 m2) with (Pos.compare m1 m2).
    rewrite Qscale_lt by lia. rewrite Z.sub_diag, Z.pow_0_r, Z.mul_1_r.
    rewrite Pos.compare_gt_iff. reflexivity.
  - rewrite Qscale_gt by lia.
    pose proof (canonical_lt_exp _ _ _ _ H1 H2 L).
    split; [discriminate | lia].
  - rewrite Qscale_lt by lia.
    pose proof (canonical_lt_exp _ _ _ _ H2 H1 G). tauto.
Qed.

Lemma SFltb_value (x y : spec_float) :
  F32.valid x = true -> F32.valid y = true ->
  SFltb x y = true <-> FP.lt_value x y.
Proof.
  unfold SFltb, FP.lt_value.
  destruct x as [sx | sx | | sx mx ex], y as [sy | sy | | sy my ey];
    cbn [F32.valid valid_binary SFcompare FP.value FP.elt]; intros Hx Hy;
    try (destruct sx); try (destruct sy); cbn [FP.elt];
    try (split;
         [discriminate
         | (intros A;
            (contradiction || (exfalso; revert A; apply Qlt_irrefl)))]);
    try (split; [intros _; exact I | reflexivity]).
  all: try (pose proof (SF2Q_pos mx ex); pose proof (SF2Q_opp mx ex));
    try (pose proof (SF2Q_pos my ey); pose proof (SF2Q_opp my ey)).
  all: try (split; [discriminate | intros; exfalso; lra]).
  all: try (split; [intros _; lra | reflexivity]).
  - rewrite H0, H2.
    assert (A : (- FP.SF2Q false mx ex < - FP.SF2Q false my ey)%Q
                <-> (FP.SF2Q false my ey < FP.SF2Q false mx ex)%Q)
      by (split; intros; lra).
    rewrite A, <- (magnitude_compare_Gt mx my ex ey Hx Hy).
    unfold FP.magnitude_compare.
    destruct (ex ?= ey); [destruct (Pos.compare_cont Eq mx my) | |];
      cbn; split; congruence.
  - rewrite <- (magnitude_compare_Lt mx my ex ey Hx Hy).
    unfold FP.magnitude_compare.
    destruct (ex ?= ey); [destruct (Pos.compare_cont Eq mx my) | |];
      cbn; split; congruence.
Qed.

Lemma F32_ltb_value (x y : F32.float) :
  F32.valid x = true -> F32.valid y = true ->
  F32.ltb x y = true <-> FP.lt_value x y.
Proof. exact (SFltb_value x y). Qed.

Lemma F32_gtb_value (x y : F32.float) :
  F32.valid x = true -> F32.valid y = true ->
  F32.gtb x y = true <-> FP.lt_value y x.
Proof. intros Hx Hy. exact (SFltb_value y x Hy Hx). Qed.

(** ** The alert rules *)

Lemma of_int_0 : F32.of_int 0 = S754_zero false.
Proof. reflexivity. Qed.

Lemma of_int_30 : F32.of_int 30 = S754_finite false 15728640 (-19).
Proof. reflexivity. Qed.

Lemma of_int_45 : F32.of_int 45 = S754_finite false 11796480 (-18).
Proof. reflexivity. Qed.

Lemma of_int_60 : F32.of_int 60 = S754_finite false 15728640 (-18).
Proof. reflexivity. Qed.

Lemma value_30 : (FP.SF2Q false 15728640 (-19) == 30)%Q.
Proof. reflexivity. Qed.

Lemma value_45 : (FP.SF2Q false 11796480 (-18) == 45)%Q.
Proof. reflexivity. Qed.

Lemma value_60 : (FP.SF2Q false 15728640 (-18) == 60)%Q.
Proof. reflexivity. Qed.

(** [distance > 0 && distance < DISTANCE_THRESHOLD] on the numbers. *)
Lemma distanceAlert_lt_value (d : F32.float) :
  F32.valid d = true ->
  distanceAlert d = true <->
  FP.lt_value (S754_zero false) d
  /\ FP.lt_value d (S754_finite false 15728640 (-19)).
Proof.
  intros V. unfold distanceAlert, DISTANCE_THRESHOLD.
  rewrite of_int_0, of_int_30, andb_true_iff.
  rewrite F32_gtb_value, F32_ltb_value by (exact V || reflexivity).
  reflexivity.
Qed.

(** C2.  For every distance reading [d] the obstacle alert is raised
    exactly when [d] is a number with [0 < d < 30]; a reading that is at
    most 0 never raises it, and neither does the -1 that [getDistance]
    returns when no echo came back. *)
Theorem distanceAlert_iff (T : Target.t) (d : F32.float) :
  F32.valid d = true ->
  (distanceAlert d = true <->
   exists q, FP.value d = Some (FP.Fin q) /\ (0 < q)%Q /\ (q < 30)%Q)
  /\ (FP.le_value d (F32.of_int 0) -> distanceAlert d = false)
  /\ distanceAlert (getDistance T 0) = false.
Proof.
  intros V. pose proof (distanceAlert_lt_value d V) as E.
  assert (R : distanceAlert d = true <->
              exists q, FP.value d = Some (FP.Fin q) /\ (0 < q)%Q /\ (q < 30)%Q).
  { rewrite E. unfold FP.lt_value.
    destruct d as [s | s | | s m e]; cbn [FP.value FP.elt].
    - split.
      + intros [A _]. exfalso. revert A. apply Qlt_irrefl.
      + intros (q & Hq & A & _). inversion Hq; subst q.
        exfalso. revert A. apply Qlt_irrefl.
    - destruct s; cbn [FP.elt]; (split; [tauto | intros (q & Hq & _); discriminate Hq]).
    - split; [tauto | intros (q & Hq & _); discriminate Hq].
    - rewrite value_30. split.
      + intros [A B]. eexists. split; [reflexivity | split; assumption].
      + intros (q & Hq & A & B). inversion Hq; subst q. split; assumption. }
  split; [exact R | split].
  - intros L. destruct (distanceAlert d) eqn:D; [exfalso | reflexivity].
    destruct (proj1 R eq_refl) as (q & Hq & A & _).
    unfold FP.le_value in L. rewrite Hq, of_int_0 in L. cbn in L. lra.
  - destruct T; reflexivity.
Qed.

Lemma distanceAlert_iff_witness :
  (distanceAlert (F32.of_int 15) = true <->
   exists q, FP.value (F32.of_int 15) = Some (FP.Fin q) /\ (0 < q)%Q /\ (q < 30)%Q)
  /\ (FP.le_value (F32.of_int 15) (F32.of_int 0) ->
      distanceAlert (F32.of_int 15) = false)
  /\ distanceAlert (getDistance Target.AVR8 0) = false.
Proof. apply (distanceAlert_iff Target.AVR8 (F32.of_int 15)). reflexivity. Defined.

(** C3.  A temperature reading that is not a number never raises the
    temperature alert; any other reading raises it exactly when it is
    below 0 or above 45.  The test for not-a-number comes first and
    decides alone. *)
Theorem tempAlert_spec (t : F32.float) :
  F32.valid t = true ->
  (FP.isnan t = true -> tempAlert t = false)
  /\ (FP.isnan t = false ->
      exists v, FP.value t = Some v
        /\ (tempAlert t = true <->
            FP.elt v (FP.Fin 0) \/ FP.elt (FP.Fin 45) v))
  /\ tempAlert t =
     (if FP.isnan t then false
      else F32.ltb t (F32.of_int TEMP_MIN) || F32.gtb t (F32.of_int TEMP_MAX)).
Proof.
  intros V. split; [| split].
  - intros N. unfold tempAlert. rewrite N. reflexivity.
  - intros N.
    assert (E : tempAlert t = true <->
                FP.lt_value t (S754_zero false)
                \/ FP.lt_value (S754_finite false 11796480 (-18)) t).
    { unfold tempAlert, TEMP_MIN, TEMP_MAX.
      rewrite N, of_int_0, of_int_45. cbn [negb andb].
      rewrite orb_true_iff.
      rewrite F32_ltb_value, F32_gtb_value by (exact V || reflexivity).
      reflexivity. }
    unfold FP.lt_value in E.
    destruct t as [s | s | | s m e]; cbn [FP.value] in *; try discriminate N;
      (eexists; split; [reflexivity |]); rewrite E; cbn [FP.elt].
    + rewrite value_45. reflexivity.
    + destruct s; cbn [FP.elt]; tauto.
    + rewrite value_45. reflexivity.
  - unfold tempAlert. destruct (FP.isnan t); reflexivity.
Qed.

Lemma tempAlert_spec_witness :
  (FP.isnan (F32.of_int 50) = true -> tempAlert (F32.of_int 50) = false)
  /\ (FP.isnan (F32.of_int 50) = false ->
      exists v, FP.value (F32.of_int 50) = Some v
        /\ (tempAlert (F32.of_int 50) = true <->
            FP.elt v (FP.Fin 0) \/ FP.elt (FP.Fin 45) v))
  /\ tempAlert (F32.of_int 50) =
     (if FP.isnan (F32.of_int 50) then false
      else F32.ltb (F32.of_int 50) (F32.of_int TEMP_MIN)
           || F32.gtb (F32.of_int 50) (F32.of_int TEMP_MAX)).
Proof. apply (tempAlert_spec (F32.of_int 50)). reflexivity. Defined.

(** ** The aggregate and the presentation *)

Lemma alertTriggered_or (manual : bool) (s : snapshot) :
  alertTriggered manual s = true <->
  manual = true
  \/ distanceAlert (distance s) = true
  \/ tempAlert (temperature s) = true
  \/ lightAlert (lightLevel s) = true
  \/ humidityAlert (humidity s) = true
  \/ motionAlert (accelSum s) = true.
Proof.
  unfold alertTriggered. rewrite !orb_true_iff. tauto.
Qed.

(** No indicator is touched while the button and the sensors are read. *)
Lemma reading_keeps_LED (r : readings) (l : level) :
  ~ In (digitalWrite LED_RED l)
       (button_calls r ++ [ millis; millis ] ++ read_sensors_calls).
Proof.
  unfold button_calls, when.
  destruct (button_low r); cbn; intros H;
    repeat (destruct H as [H | H]; [discriminate H |]); exact H.
Qed.

Lemma loop_evaluates (T : Target.t) (g : globals) (r : readings) :
  early_return g r = false ->
  loop T g r =
  ({| lastCheck := millis_stamp r; buttonPressed := false |},
   button_calls r ++ [ millis; millis ] ++ read_sensors_calls
   ++ when (alertTriggered (pending g r) (read_sensors T r))
        (present (pending g r) (read_sensors T r))).
Proof. intros H. unfold loop. rewrite H. reflexivity. Qed.

Lemma loop_returns_early (T : Target.t) (g : globals) (r : readings) :
  early_return g r = true ->
  loop T g r = (g, [ digitalRead BUTTON_PIN; millis ]).
Proof.
  intros H. unfold loop. rewrite H.
  unfold early_return in H. apply andb_true_iff in H. destruct H as [_ P].
  apply negb_true_iff in P. rewrite P.
  unfold pending in P. unfold button_calls, when.
  destruct (button_low r); [discriminate P |].
  destruct g as [lc bp]; cbn in *. rewrite P. reflexivity.
Qed.

(** C1.  The aggregate flag is the disjunction of the six reasons, for
    every manual flag and every snapshot; and a pass of [loop] that gets
    to the evaluation presents the alert exactly when the aggregate flag
    of its own readings is set: then the calls of the pass end with the
    whole presentation, otherwise the pass makes no call beyond reading
    the button, the clock and the sensors. *)
Theorem alertTriggered_iff
  (T : Target.t) (g : globals) (r : readings) (manual : bool) (s : snapshot) :
  early_return g r = false ->
  (alertTriggered manual s = true <->
   manual = true
   \/ distanceAlert (distance s) = true
   \/ tempAlert (temperature s) = true
   \/ lightAlert (lightLevel s) = true
   \/ humidityAlert (humidity s) = true
   \/ motionAlert (accelSum s) = true)
  /\ (alertTriggered (pending g r) (read_sensors T r) = true ->
      snd (loop T g r) =
      button_calls r ++ [ millis; millis ] ++ read_sensors_calls
      ++ present (pending g r) (read_sensors T r))
  /\ (alertTriggered (pending g r) (read_sensors T r) = false ->
      snd (loop T g r) =
      button_calls r ++ [ millis; millis ] ++ read_sensors_calls)
  /\ (In (digitalWrite LED_RED HIGH) (snd (loop T g r)) <->
      alertTriggered (pending g r) (read_sensors T r) = true).
Proof.
  intros E. split; [apply alertTriggered_or |].
  rewrite (loop_evaluates T g r E). cbn [snd].
  destruct (alertTriggered (pending g r) (read_sensors T r)); cbn [when].
  - split; [reflexivity | split; [discriminate |]].
    split; [reflexivity | intros _].
    rewrite !app_assoc. apply in_or_app. right.
    unfold present, alert_on. left. reflexivity.
  - split; [discriminate | split; [intros _; rewrite app_nil_r; reflexivity |]].
    split; [| discriminate].
    rewrite app_nil_r. intros H. exfalso.
    exact (reading_keeps_LED r HIGH H).
Qed.

Lemma alertTriggered_iff_witness :
  early_return globals_init obstacle_near = false
  /\ (In (digitalWrite LED_RED HIGH)
         (snd (loop Target.AVR8 globals_init obstacle_near)) <->
      alertTriggered (pending globals_init obstacle_near)
        (read_sensors Target.AVR8 obstacle_near) = true).
Proof.
  split; [reflexivity |].
  exact (proj2 (proj2 (proj2
           (alertTriggered_iff Target.AVR8 globals_init obstacle_near false
              (read_sensors Target.AVR8 obstacle_near) eq_refl)))).
Defined.

(** ** The acceleration sum *)

Lemma wrap_signed_16 (z : Z) :
  -32768 <= z <= 32767 -> CInt.wrap_signed 16 z = z.
Proof.
  intros H. unfold CInt.wrap_signed.
  change (2 ^ (16 - 1)) with 32768. change (2 ^ 16) with 65536.
  rewrite Z.mod_small by lia. lia.
Qed.

Lemma wrap_signed_32 (z : Z) :
  -2147483648 <= z <= 2147483647 -> CInt.wrap_signed 32 z = z.
Proof.
  intros H. unfold CInt.wrap_signed.
  change (2 ^ (32 - 1)) with 2147483648. change (2 ^ 32) with 4294967296.
  rewrite Z.mod_small by lia. lia.
Qed.

(** With a 32-bit [int] the macro [abs] is the absolute value on every
    16-bit reading. *)
Lemma abs_Core32 (x : Z) :
  CInt.in_int16 x -> CInt.abs Target.Core32 x = Z.abs x.
Proof.
  unfold CInt.in_int16, CInt.abs, CInt.int_neg. intros H.
  destruct (Z.ltb_spec 0 x); [lia |].
  cbn [Target.int_bits]. rewrite wrap_signed_32 by lia. lia.
Qed.

(** With a 16-bit [int] it is so on every reading but -32768. *)
Lemma abs_AVR8 (x : Z) :
  -32768 < x <= 32767 -> CInt.abs Target.AVR8 x = Z.abs x.
Proof.
  unfold CInt.abs, CInt.int_neg. intros H.
  destruct (Z.ltb_spec 0 x); [lia |].
  cbn [Target.int_bits]. rewrite wrap_signed_16 by lia. lia.
Qed.

Lemma totalAccel_Core32 (x y z : Z) :
  CInt.in_int16 x -> CInt.in_int16 y -> CInt.in_int16 z ->
  totalAccel Target.Core32 x y z = Z.abs x + Z.abs y + Z.abs z.
Proof.
  intros Hx Hy Hz. unfold totalAccel, CInt.int_to_long, CInt.int_add.
  rewrite !abs_Core32 by assumption.
  unfold CInt.in_int16 in *. cbn [Target.int_bits]. unfold Target.long_bits.
  rewrite (wrap_signed_32 (Z.abs x + Z.abs y)) by lia.
  rewrite (wrap_signed_32 (Z.abs x + Z.abs y + Z.abs z)) by lia.
  apply wrap_signed_32. lia.
Qed.

Lemma totalAccel_AVR8 (x y z : Z) :
  -32768 < x <= 32767 -> -32768 < y <= 32767 -> -32768 < z <= 32767 ->
  Z.abs x + Z.abs y + Z.abs z <= 32767 ->
  totalAccel Target.AVR8 x y z = Z.abs x + Z.abs y + Z.abs z.
Proof.
  intros Hx Hy Hz S. unfold totalAccel, CInt.int_to_long, CInt.int_add.
  rewrite !abs_AVR8 by assumption.
  cbn [Target.int_bits]. unfold Target.long_bits.
  rewrite (wrap_signed_16 (Z.abs x + Z.abs y)) by lia.
  rewrite (wrap_signed_16 (Z.abs x + Z.abs y + Z.abs z)) by lia.
  apply wrap_signed_32. lia.
Qed.

(** With a 32-bit [int] the motion alert is the comparison of the
    Manhattan sum with the threshold. *)
Lemma motionAlert_Core32_iff (x y z : Z) :
  CInt.in_int16 x -> CInt.in_int16 y -> CInt.in_int16 z ->
  motionAlert (totalAccel Target.Core32 x y z) = true <->
  15000 < Z.abs x + Z.abs y + Z.abs z.
Proof.
  intros Hx Hy Hz. rewrite totalAccel_Core32 by assumption.
  unfold motionAlert, ACCEL_THRESHOLD. apply Z.ltb_lt.
Qed.

(** C4, on a board with a 16-bit [int].  The readings (20000, 20000, 0)
    are 16-bit readings whose sum of absolute values, 40000, is above
    the threshold of 15000; [abs(ax) + abs(ay) + abs(az)] is computed in
    [int], wraps to -25536, and the motion alert stays off. *)
Theorem motionAlert_AVR8_overflow :
  CInt.in_int16 20000 /\ CInt.in_int16 0
  /\ ACCEL_THRESHOLD < Z.abs 20000 + Z.abs 20000 + Z.abs 0
  /\ totalAccel Target.AVR8 20000 20000 0 = -25536
  /\ motionAlert (totalAccel Target.AVR8 20000 20000 0) = false.
Proof.
  unfold CInt.in_int16, ACCEL_THRESHOLD.
  repeat split; try lia; try discriminate; reflexivity.
Qed.

(** C5, on a board with a 16-bit [int].  For the readings (-32768, 0, 0)
    the negation inside [abs] wraps, and [totalAccel] is -32768, a
    negative number. *)
Theorem totalAccel_AVR8_negative :
  CInt.in_int16 (-32768) /\ CInt.in_int16 0
  /\ totalAccel Target.AVR8 (-32768) 0 0 = -32768
  /\ totalAccel Target.AVR8 (-32768) 0 0 < 0.
Proof.
  unfold CInt.in_int16. repeat split; try lia; try discriminate; reflexivity.
Qed.

(** ** The manual flag and the gate of [loop] *)

Ltac absent H :=
  cbn in H; repeat (destruct H as [H | H]; [discriminate H |]); exact H.

Lemma manual_line_needs_flag (s : snapshot) :
  ~ In (Serial_println (PStr "🔘 Manual Button Triggered")) (present false s).
Proof.
  unfold present, alert_report, when. intros H.
  apply in_app_or in H. destruct H as [H | H]; [absent H |].
  apply in_app_or in H. destruct H as [H | H]; [| absent H].
  destruct (distanceAlert (distance s)), (tempAlert (temperature s)),
    (lightAlert (lightLevel s)), (humidityAlert (humidity s)),
    (motionAlert (accelSum s)); absent H.
Qed.

Lemma manual_line_absent (T : Target.t) (g : globals) (r : readings) :
  pending g r = false ->
  ~ In (Serial_println (PStr "🔘 Manual Button Triggered")) (snd (loop T g r)).
Proof.
  intros P H. unfold loop in H. rewrite P in H.
  destruct (early_return g r); cbn [snd] in H.
  - unfold button_calls, when in H. destruct (button_low r); absent H.
  - rewrite !app_assoc in H. apply in_app_or in H. destruct H as [H | H].
    + unfold button_calls, when in H. destruct (button_low r); absent H.
    + unfold when in H.
      destruct (alertTriggered false (read_sensors T r)); [| exact H].
      exact (manual_line_needs_flag _ H).
Qed.

Lemma button_low_prints_manual (T : Target.t) (g : globals) (r : readings) :
  button r = LOW ->
  In (Serial_println (PStr "🔘 Manual Button Triggered")) (snd (loop T g r)).
Proof.
  intros B.
  assert (P : pending g r = true)
    by (unfold pending, button_low; rewrite B; reflexivity).
  assert (E : early_return g r = false)
    by (unfold early_return; rewrite P; apply andb_false_r).
  rewrite (loop_evaluates T g r E), P. cbn [snd].
  unfold alertTriggered. cbn [orb when].
  apply in_or_app. right. apply in_or_app. right. apply in_or_app. right.
  unfold present. apply in_or_app. right. apply in_or_app. left.
  unfold alert_report, when. right. left. reflexivity.
Qed.

(** C6, as the sketch behaves.  A pass of [loop] that gets to the
    evaluation leaves [buttonPressed] false, whether or not it presented
    an alert; in the pass that follows, the manual flag is pending, and
    the report names the button, exactly when the button is read LOW
    again in that pass.  A flag left from the earlier pass never fires;
    a button that is still held down does. *)
Theorem buttonPressed_reset
  (T : Target.t) (g : globals) (r1 r2 : readings) :
  early_return g r1 = false ->
  buttonPressed (fst (loop T g r1)) = false
  /\ (pending (fst (loop T g r1)) r2 = true <-> button r2 = LOW)
  /\ (In (Serial_println (PStr "🔘 Manual Button Triggered"))
          (snd (loop T (fst (loop T g r1)) r2))
      <-> button r2 = LOW).
Proof.
  intros E. rewrite (loop_evaluates T g r1 E). cbn [fst].
  split; [reflexivity |].
  assert (P : pending {| lastCheck := millis_stamp r1; buttonPressed := false |} r2
              = true <-> button r2 = LOW).
  { unfold pending, button_low. cbn [buttonPressed].
    destruct (button r2); split; intros H; (reflexivity || discriminate H). }
  split; [exact P |]. split.
  - intros H. destruct (button r2) eqn:B; [reflexivity | exfalso].
    refine (manual_line_absent T _ r2 _ H).
    unfold pending, button_low. rewrite B. reflexivity.
  - intros B. apply button_low_prints_manual. exact B.
Qed.

Lemma buttonPressed_reset_witness :
  early_return globals_init button_down = false
  /\ buttonPressed (fst (loop Target.AVR8 globals_init button_down)) = false
  /\ (pending (fst (loop Target.AVR8 globals_init button_down)) calm = true
      <-> button calm = LOW).
Proof.
  pose proof (buttonPressed_reset Target.AVR8 globals_init button_down calm
                eq_refl) as (A & B & _).
  split; [reflexivity | split; [exact A | exact B]].
Defined.

(** C6, as the claim words it, fails.  The button is tested for its
    level, not for an edge: one press that is held down through the
    debounce and the dwell of the first alert is read LOW again by the
    next pass, and the manual reason fires in both of these consecutive
    evaluating passes. *)
Lemma held_button_fires_twice :
  early_return globals_init button_down = false
  /\ early_return (fst (loop Target.AVR8 globals_init button_down)) still_down
     = false
  /\ In (Serial_println (PStr "🔘 Manual Button Triggered"))
        (snd (loop Target.AVR8 globals_init button_down))
  /\ In (Serial_println (PStr "🔘 Manual Button Triggered"))
        (snd (loop Target.AVR8
                (fst (loop Target.AVR8 globals_init button_down)) still_down)).
Proof.
  split; [reflexivity | split; [reflexivity | split]];
    apply button_low_prints_manual; reflexivity.
Qed.

(** C8.  A pass of [loop] reads the sensors exactly when more than
    [CHECK_INTERVAL] = 500 ms lie between [lastCheck] and the clock, or
    the manual flag is pending.  It then does the whole evaluation:
    it stamps [lastCheck], reads every sensor, presents the alert if the
    aggregate flag of these readings is set, and clears [buttonPressed].
    Otherwise the pass reads the button and the clock and returns: the
    globals are the ones it started with, and no indicator changes. *)
Theorem evaluation_gate (T : Target.t) (g : globals) (r : readings) :
  ((forall e, In e read_sensors_calls -> In e (snd (loop T g r))) <->
   500 < CInt.ulong_sub (millis_check r) (lastCheck g)
   \/ pending g r = true)
  /\ (500 < CInt.ulong_sub (millis_check r) (lastCheck g)
      \/ pending g r = true ->
      loop T g r =
      ({| lastCheck := millis_stamp r; buttonPressed := false |},
       button_calls r ++ [ millis; millis ] ++ read_sensors_calls
       ++ when (alertTriggered (pending g r) (read_sensors T r))
            (present (pending g r) (read_sensors T r))))
  /\ (~ (500 < CInt.ulong_sub (millis_check r) (lastCheck g)
         \/ pending g r = true) ->
      loop T g r = (g, [ digitalRead BUTTON_PIN; millis ])
      /\ forall h, settle h (snd (loop T g r)) = h).
Proof.
  assert (G : early_return g r = false <->
              500 < CInt.ulong_sub (millis_check r) (lastCheck g)
              \/ pending g r = true).
  { unfold early_return, checkNow, CHECK_INTERVAL.
    destruct (Z.ltb_spec 500 (CInt.ulong_sub (millis_check r) (lastCheck g)));
      destruct (pending g r); cbn; split; intros; try reflexivity;
      try discriminate; try (left; assumption); try (right; reflexivity).
    destruct H0 as [A | A]; [lia | discriminate A]. }
  split; [| split].
  - rewrite <- G. destruct (early_return g r) eqn:E.
    + rewrite (loop_returns_early T g r E). cbn [snd]. split; [| discriminate].
      intros H. specialize (H dht_readTemperature (or_introl eq_refl)).
      exfalso. absent H.
    + rewrite (loop_evaluates T g r E). cbn [snd]. split; [reflexivity |].
      intros _ e H. apply in_or_app. right. apply in_or_app. right.
      apply in_or_app. left. exact H.
  - intros O. apply loop_evaluates. apply G. exact O.
  - intros N. destruct (early_return g r) eqn:E.
    + rewrite (loop_returns_early T g r E). split; reflexivity.
    + exfalso. apply N, G. reflexivity.
Qed.

Lemma evaluation_gate_witness :
  (500 < CInt.ulong_sub (millis_check obstacle_near) (lastCheck globals_init)
   \/ pending globals_init obstacle_near = true)
  /\ loop Target.AVR8 globals_init obstacle_near =
     ({| lastCheck := millis_stamp obstacle_near; buttonPressed := false |},
      button_calls obstacle_near ++ [ millis; millis ] ++ read_sensors_calls
      ++ when (alertTriggered (pending globals_init obstacle_near)
                 (read_sensors Target.AVR8 obstacle_near))
           (present (pending globals_init obstacle_near)
              (read_sensors Target.AVR8 obstacle_near)))
  /\ ~ (500 < CInt.ulong_sub (millis_check too_soon) (lastCheck globals_init)
        \/ pending globals_init too_soon = true)
  /\ loop Target.AVR8 globals_init too_soon
     = (globals_init, [ digitalRead BUTTON_PIN; millis ]).
Proof.
  assert (O : 500 < CInt.ulong_sub (millis_check obstacle_near)
                      (lastCheck globals_init)
              \/ pending globals_init obstacle_near = true)
    by (left; reflexivity).
  assert (N : ~ (500 < CInt.ulong_sub (millis_check too_soon)
                         (lastCheck globals_init)
                 \/ pending globals_init too_soon = true)).
  { intros [A | A]; [vm_compute in A; discriminate A | discriminate A]. }
  split; [exact O | split; [| split; [exact N |]]].
  - exact (proj1 (proj2 (evaluation_gate Target.AVR8 globals_init obstacle_near)) O).
  - exact (proj1 (proj2 (proj2 (evaluation_gate Target.AVR8 globals_init too_soon)) N)).
Defined.

(** ** Start-up *)

Lemma step_stuck (T : Target.t) (b : boot) (r : readings) (m : machine) :
  at_phase m = Stuck -> step T b r m = (m, []).
Proof. intros H. unfold step. rewrite H. reflexivity. Qed.

(** C9.  When [display.begin] fails, [setup] prints its message and
    does not return; however many steps the program is given, the
    machine is in the [while (true);] of [setup] and the calls made are
    those of [setup] up to and including that message: nothing of the
    rest of [setup], and no pass of [loop]. *)
Theorem display_failure_halts
  (T : Target.t) (mpu_ok : bool) (env : nat -> readings) (n : nat) :
  let b := {| display_begin_ok := false; mpu_testConnection_ok := mpu_ok |} in
  snd (setup b) = NeverReturns
  /\ run T b env (S n) =
     ({| at_phase := Stuck; vars := globals_init |},
      setup_init ++ [ Serial_println (PStr "SSD1306 allocation failed!") ]).
Proof.
  intros b. split; [reflexivity |].
  induction n as [| n IH].
  - reflexivity.
  - change (run T b env (S (S n)))
      with (let (m, done) := run T b env (S n) in
            let (m', calls) := step T b (env (S n)) m in
            (m', done ++ calls)).
    rewrite IH. rewrite step_stuck by reflexivity.
    rewrite app_nil_r. reflexivity.
Qed.

(** ** The end of an alert *)

Lemma settle_app (h : indicators) (l1 l2 : list event) :
  settle h (l1 ++ l2) = settle (settle h l1) l2.
Proof. unfold settle. apply fold_left_app. Qed.

Lemma alert_off_clears (h : indicators) : all_clear (settle h alert_off).
Proof. unfold all_clear. cbn. repeat split. Qed.

(** C10.  A pass of [loop] that presents an alert ends with the dwell
    of 2000 ms followed by [noTone], the LED driven low, and the display
    cleared and pushed to the panel; whatever the indicators showed
    before the pass, after it the LED is off, the buzzer is silent and
    buffer and panel of the display are blank. *)
Theorem alert_ends_clear
  (T : Target.t) (g : globals) (r : readings) (h : indicators) :
  early_return g r = false ->
  alertTriggered (pending g r) (read_sensors T r) = true ->
  (exists before,
     snd (loop T g r) =
     before ++ [ delay 2000; noTone BUZZER_PIN; digitalWrite LED_RED LOW;
                 display oled_clearDisplay; display oled_display ])
  /\ all_clear (settle h (snd (loop T g r))).
Proof.
  intros E A. rewrite (loop_evaluates T g r E). cbn [snd]. rewrite A.
  cbn [when]. unfold present.
  split.
  - eexists. rewrite !app_assoc. reflexivity.
  - rewrite !app_assoc. rewrite settle_app. apply alert_off_clears.
Qed.

Lemma alert_ends_clear_witness :
  early_return globals_init obstacle_near = false
  /\ alertTriggered (pending globals_init obstacle_near)
       (read_sensors Target.AVR8 obstacle_near) = true
  /\ all_clear (settle lit (snd (loop Target.AVR8 globals_init obstacle_near))).
Proof.
  split; [reflexivity | split; [reflexivity |]].
  exact (proj2 (alert_ends_clear Target.AVR8 globals_init obstacle_near lit
                  eq_refl eq_refl)).
Defined.

(** ** Rounding in the normal range

    The operations of [SpecFloat] on mantissas that have at least the
    precision of the format and on exponents away from underflow and
    overflow: the result is finite, has the sign asked for and a
    mantissa of exactly [prec] digits. *)

Lemma digits_unique (m : positive) (d : Z) :
  2 ^ (d - 1) <= Zpos m < 2 ^ d -> Zpos (digits2_pos m) = d.
Proof.
  intros [L U]. pose proof (digits2_pos_bounds m) as [L0 U0].
  destruct (Z.lt_trichotomy (Zpos (digits2_pos m)) d) as [A | [A | A]].
  - assert (2 ^ Zpos (digits2_pos m) <= 2 ^ (d - 1))
      by (apply Z.pow_le_mono_r; lia). lia.
  - exact A.
  - assert (0 <= d).
    { destruct (Z.le_gt_cases 0 d) as [B | B]; [exact B |].
      rewrite (Z.pow_neg_r 2 d B) in U. lia. }
    assert (2 ^ d <= 2 ^ (Zpos (digits2_pos m) - 1))
      by (apply Z.pow_le_mono_r; lia). lia.
Qed.

Lemma shr_1_m (r : shr_record) :
  0 <= shr_m r -> shr_m (shr_1 r) = shr_m r / 2.
Proof.
  destruct r as [m a b]. cbn [shr_m]. intros H.
  rewrite <- Z.div2_div.
  destruct m as [| p | p]; [reflexivity | | lia].
  destruct p; reflexivity.
Qed.

Lemma iter_shr_1_m (p : positive) (r : shr_record) :
  0 <= shr_m r -> shr_m (iter_pos shr_1 p r) = shr_m r / 2 ^ Zpos p.
Proof.
  revert r. induction p as [p IH | p IH |]; intros r H; cbn [iter_pos].
  - assert (A : 0 <= shr_m (shr_1 r))
      by (rewrite shr_1_m by exact H; apply Z.div_pos; lia).
    assert (B : 0 <= shr_m (iter_pos shr_1 p (shr_1 r)))
      by (rewrite IH by exact A; apply Z.div_pos; [exact A | apply Z.pow_pos_nonneg; lia]).
    rewrite IH by exact B. rewrite IH by exact A. rewrite shr_1_m by exact H.
    rewrite !Z.div_div by (try apply Z.pow_pos_nonneg; lia).
    f_equal.
    replace (Zpos p~1) with (1 + Zpos p + Zpos p) by lia.
    rewrite !Z.pow_add_r by lia. change (2 ^ 1) with 2. ring.
  - assert (B : 0 <= shr_m (iter_pos shr_1 p r))
      by (rewrite IH by exact H; apply Z.div_pos; [exact H | apply Z.pow_pos_nonneg; lia]).
    rewrite IH by exact B. rewrite IH by exact H.
    rewrite !Z.div_div by (try apply Z.pow_pos_nonneg; lia).
    f_equal.
    replace (Zpos p~0) with (Zpos p + Zpos p) by lia.
    rewrite !Z.pow_add_r by lia. reflexivity.
  - rewrite shr_1_m by exact H. reflexivity.
Qed.

Lemma shr_record_of_loc_m (m : Z) (l : location) :
  shr_m (shr_record_of_loc m l) = m.
Proof. destruct l as [| []]; reflexivity. Qed.

Lemma round_nearest_even_bounds (m : Z) (l : location) :
  m <= round_nearest_even m l <= m + 1.
Proof.
  unfold round_nearest_even. destruct l as [| []]; try lia.
  destruct (Z.even m); lia.
Qed.

Section Rounding.
Variables prec emax : Z.
Hypothesis prec_pos : 0 < prec.

Lemma shr_fexp_normal (mx : positive) (ex : Z) (l : location) :
  prec <= Zpos (digits2_pos mx) ->
  emin prec emax + prec <= Zpos (digits2_pos mx) + ex ->
  exists r,
    shr_fexp prec emax (Zpos mx) ex l
    = (r, Zpos (digits2_pos mx) + ex - prec)
    /\ 2 ^ (prec - 1) <= shr_m r < 2 ^ prec.
Proof.
  intros Hd Hn. pose proof (digits2_pos_bounds mx) as [L U].
  unfold shr_fexp, shr, fexp. cbn [Zdigits2].
  rewrite Z.max_l by lia.
  destruct (Zpos (digits2_pos mx) + ex - prec - ex) as [| n | n] eqn:E.
  - eexists. split; [f_equal; lia |].
    rewrite shr_record_of_loc_m.
    replace prec with (Zpos (digits2_pos mx)) by lia. lia.
  - eexists. split; [f_equal; lia |].
    rewrite iter_shr_1_m by (rewrite shr_record_of_loc_m; lia).
    rewrite shr_record_of_loc_m.
    assert (P : 0 < 2 ^ Zpos n) by (apply Z.pow_pos_nonneg; lia).
    assert (S1 : 2 ^ (Zpos (digits2_pos mx) - 1) = 2 ^ Zpos n * 2 ^ (prec - 1)).
    { rewrite <- Z.pow_add_r by lia. f_equal. lia. }
    assert (S2 : 2 ^ Zpos (digits2_pos mx) = 2 ^ Zpos n * 2 ^ prec).
    { rewrite <- Z.pow_add_r by lia. f_equal. lia. }
    split.
    + apply Z.div_le_lower_bound; [exact P | lia].
    + apply Z.div_lt_upper_bound; [exact P | lia].
  - lia.
Qed.

Lemma binary_round_aux_normal (s : bool) (mx : positive) (ex : Z) (l : location) :
  prec <= Zpos (digits2_pos mx) ->
  emin prec emax + prec <= Zpos (digits2_pos mx) + ex ->
  Zpos (digits2_pos mx) + ex + 1 <= emax ->
  exists m e,
    binary_round_aux prec emax s (Zpos mx) ex l = S754_finite s m e
    /\ Zpos (digits2_pos m) = prec
    /\ (e = Zpos (digits2_pos mx) + ex - prec
        \/ e = Zpos (digits2_pos mx) + ex + 1 - prec).
Proof.
  intros Hd Hn Ho. unfold binary_round_aux.
  destruct (shr_fexp_normal mx ex l Hd Hn) as (r1 & E1 & L1 & U1).
  rewrite E1.
  pose proof (round_nearest_even_bounds (shr_m r1) (loc_of_shr_record r1)) as [L2 U2].
  assert (P : 0 < 2 ^ (prec - 1)) by (apply Z.pow_pos_nonneg; lia).
  destruct (round_nearest_even (shr_m r1) (loc_of_shr_record r1)) as [| p1 | p1] eqn:E2;
    try lia.
  assert (S : 2 ^ prec = 2 * 2 ^ (prec - 1)).
  { rewrite <- Z.pow_succ_r by lia. f_equal. lia. }
  assert (D1 : Zpos (digits2_pos p1) = prec \/ Zpos (digits2_pos p1) = prec + 1).
  { destruct (Z.lt_ge_cases (Zpos p1) (2 ^ prec)) as [A | A].
    - left. apply digits_unique. lia.
    - right. apply digits_unique.
      replace (prec + 1 - 1) with prec by lia.
      rewrite Z.pow_add_r by lia. change (2 ^ 1) with 2. lia. }
  destruct (shr_fexp_normal p1 (Zpos (digits2_pos mx) + ex - prec) loc_Exact)
    as (r2 & E3 & L3 & U3); [lia | lia |].
  rewrite E3.
  destruct (shr_m r2) as [| p2 | p2] eqn:E4; try lia.
  assert (D2 : Zpos (digits2_pos p2) = prec) by (apply digits_unique; lia).
  assert (B : (Zpos (digits2_pos p1) + (Zpos (digits2_pos mx) + ex - prec) - prec
               <=? emax - prec) = true) by (apply Z.leb_le; lia).
  rewrite B. eexists. eexists. split; [reflexivity |]. split; [exact D2 | lia].
Qed.


Lemma digits2_pos_iter_xO (m d : positive) :
  Zpos (digits2_pos (Pos.iter xO m d)) = Zpos (digits2_pos m) + Zpos d.
Proof.
  induction d as [| d IH] using Pos.peano_ind.
  - cbn [Pos.iter digits2_pos]. lia.
  - rewrite Pos.iter_succ. cbn [digits2_pos]. lia.
Qed.

Lemma binary_round_normal (s : bool) (mx : positive) (ex : Z) :
  emin prec emax + prec <= Zpos (digits2_pos mx) + ex ->
  Zpos (digits2_pos mx) + ex + 1 <= emax ->
  exists m e,
    binary_round prec emax s mx ex = S754_finite s m e
    /\ Zpos (digits2_pos m) = prec
    /\ (e = Zpos (digits2_pos mx) + ex - prec
        \/ e = Zpos (digits2_pos mx) + ex + 1 - prec).
Proof.
  intros Hn Ho. unfold binary_round, shl_align, fexp.
  rewrite Z.max_l by lia.
  destruct (Zpos (digits2_pos mx) + ex - prec - ex) as [| d | d] eqn:E.
  - apply binary_round_aux_normal; lia.
  - apply binary_round_aux_normal; lia.
  - pose proof (digits2_pos_iter_xO mx d) as D.
    destruct (binary_round_aux_normal s (Pos.iter xO mx d)
                (Zpos (digits2_pos mx) + ex - prec) loc_Exact)
      as (m & e & R & Dm & De); [lia | lia | lia |].
    exists m, e. split; [exact R | split; [exact Dm | lia]].
Qed.

Lemma digits2_pos_mul (a b : positive) :
  Zpos (digits2_pos (a * b)) = Zpos (digits2_pos a) + Zpos (digits2_pos b) - 1
  \/ Zpos (digits2_pos (a * b)) = Zpos (digits2_pos a) + Zpos (digits2_pos b).
Proof.
  pose proof (digits2_pos_bounds a) as [La Ua].
  pose proof (digits2_pos_bounds b) as [Lb Ub].
  set (da := Zpos (digits2_pos a)) in *. set (db := Zpos (digits2_pos b)) in *.
  assert (Pa : 0 < 2 ^ (da - 1)) by (apply Z.pow_pos_nonneg; lia).
  assert (Pb : 0 < 2 ^ (db - 1)) by (apply Z.pow_pos_nonneg; lia).
  assert (L : 2 ^ (da + db - 1 - 1) <= Zpos (a * b)).
  { replace (da + db - 1 - 1) with ((da - 1) + (db - 1)) by lia.
    rewrite Z.pow_add_r by lia. rewrite Pos2Z.inj_mul. nia. }
  assert (U : Zpos (a * b) < 2 ^ (da + db)).
  { rewrite Z.pow_add_r by lia. rewrite Pos2Z.inj_mul. nia. }
  destruct (Z.lt_ge_cases (Zpos (a * b)) (2 ^ (da + db - 1))) as [A | A].
  - left. apply digits_unique. lia.
  - right. apply digits_unique. lia.
Qed.

Lemma SFmul_normal (mx my : positive) (ex ey : Z) :
  Zpos (digits2_pos mx) = prec ->
  Zpos (digits2_pos my) = prec ->
  emin prec emax + prec <= 2 * prec - 1 + ex + ey ->
  2 * prec + ex + ey + 1 <= emax ->
  exists m e,
    SFmul prec emax (S754_finite false mx ex) (S754_finite false my ey)
    = S754_finite false m e
    /\ Zpos (digits2_pos m) = prec
    /\ prec - 1 + ex + ey <= e <= prec + 1 + ex + ey.
Proof.
  intros Dx Dy Hn Ho. cbn [SFmul xorb].
  destruct (digits2_pos_mul mx my) as [D | D];
    (destruct (binary_round_aux_normal false (mx * my) (ex + ey) loc_Exact)
      as (m & e & R & Dm & De); [lia | lia | lia |];
     exists m, e; split; [exact R | split; [exact Dm | lia]]).
Qed.

Lemma div_eucl_exact (a b : Z) : 0 < b -> Z.div_eucl (a * b) b = (a, 0).
Proof.
  intros H. pose proof (Z.div_mul a b ltac:(lia)) as Q.
  pose proof (Z.mod_mul a b ltac:(lia)) as R.
  unfold Z.div, Z.modulo in Q, R.
  destruct (Z.div_eucl (a * b) b) as [q r]. cbn in Q, R. subst. reflexivity.
Qed.

Lemma shift_match (s a : Z) :
  0 < s ->
  match s with Zpos _ => Z.shiftl a s | Z0 => a | Zneg _ => 0 end = a * 2 ^ s.
Proof.
  intros H. destruct s; try lia. apply Z.shiftl_mul_pow2. lia.
Qed.

(** Division by the datum 2.0 of the format. *)
Lemma SFdiv_two_normal (mx m2 : positive) (ex e2 : Z) :
  Zpos (digits2_pos mx) = prec ->
  Zpos m2 = 2 ^ (prec - 1) -> e2 = 2 - prec ->
  emin prec emax + prec <= prec + ex - 2 ->
  prec + ex + 1 <= emax ->
  exists m e,
    SFdiv prec emax (S754_finite false mx ex) (S754_finite false m2 e2)
    = S754_finite false m e
    /\ Zpos (digits2_pos m) = prec
    /\ ex - 1 <= e <= ex.
Proof.
  intros Dx M2 E2 Hn Ho. cbn [SFdiv xorb].
  assert (D2 : Zpos (digits2_pos m2) = prec).
  { apply digits_unique. rewrite M2. split; [lia |].
    apply Z.pow_lt_mono_r; lia. }
  assert (C : SFdiv_core_binary prec emax (Zpos mx) ex (Zpos m2) e2
              = (Zpos mx~0, ex - 2, loc_Exact)).
  { unfold SFdiv_core_binary. cbn [Zdigits2]. rewrite Dx, D2.
    assert (F : fexp prec emax (prec + ex - (prec + e2)) = ex - 2)
      by (unfold fexp; lia).
    rewrite F. rewrite Z.min_l by lia.
    replace (ex - e2 - (ex - 2)) with prec by lia.
    rewrite shift_match by exact prec_pos.
    assert (S : 2 ^ prec = 2 * 2 ^ (prec - 1)).
    { rewrite <- Z.pow_succ_r by lia. f_equal. lia. }
    rewrite M2, S.
    replace (Zpos mx * (2 * 2 ^ (prec - 1)))
      with (Zpos mx~0 * 2 ^ (prec - 1)) by lia.
    rewrite div_eucl_exact by (apply Z.pow_pos_nonneg; lia).
    f_equal. unfold new_location, new_location_even, new_location_odd.
    destruct (Z.even (2 ^ (prec - 1))); reflexivity. }
  rewrite C.
  destruct (binary_round_aux_normal false mx~0 (ex - 2) loc_Exact)
    as (m & e & R & Dm & De); cbn [digits2_pos]; try lia.
  exists m, e. split; [exact R | split; [exact Dm |]].
  cbn [digits2_pos] in De. lia.
Qed.

End Rounding.


(** The [double] expression of [getDistance] on a positive duration
    [d]: a positive finite datum whose exponent follows the number of
    binary digits of [d]. *)
Lemma double_distance_normal
  (P E : Z) (d mc m2 : positive) (ec e2 : Z) :
  0 < P -> 32 <= E ->
  FP.literal P E 34 1000 = S754_finite false mc ec ->
  Zpos (digits2_pos mc) = P -> ec = - 4 - P ->
  FP.of_Z P E 2 = S754_finite false m2 e2 ->
  Zpos m2 = 2 ^ (P - 1) -> e2 = 2 - P ->
  Zpos d < 2 ^ 31 ->
  exists m e,
    SFdiv P E (SFmul P E (FP.of_Z P E (Zpos d)) (FP.literal P E 34 1000))
      (FP.of_Z P E 2)
    = S754_finite false m e
    /\ Zpos (digits2_pos m) = P
    /\ Zpos (digits2_pos d) - 6 - P <= e <= Zpos (digits2_pos d) - 2 - P.
Proof.
  intros HP HE Lc Dc Ec L2 M2 E2 Hd.
  assert (D0 : 1 <= Zpos (digits2_pos d) <= 31).
  { split; [lia |]. pose proof (digits2_pos_bounds d) as [L _].
    destruct (Z.le_gt_cases (Zpos (digits2_pos d)) 31) as [A | A]; [exact A |].
    assert (2 ^ 31 <= 2 ^ (Zpos (digits2_pos d) - 1))
      by (apply Z.pow_le_mono_r; lia). lia. }
  unfold FP.of_Z at 1. cbn [binary_normalize].
  destruct (binary_round_normal P E HP false d 0)
    as (mx & ex & Rx & Dx & Ex); [unfold emin; lia | lia |].
  rewrite Rx, Lc, L2.
  destruct (SFmul_normal P E HP mx mc ex ec Dx Dc)
    as (my & ey & Ry & Dy & Ey); [unfold emin; lia | lia |].
  rewrite Ry.
  destruct (SFdiv_two_normal P E HP my m2 ey e2 Dy M2 E2)
    as (mz & ez & Rz & Dz & Ez); [unfold emin; lia | lia |].
  exists mz, ez. split; [exact Rz | split; [exact Dz | lia]].
Qed.

(** What [getDistance] returns for a positive duration [d]: a positive
    normal binary32 whose exponent follows the number of binary digits
    of [d]. *)
Lemma getDistance_magnitude (T : Target.t) (d : positive) :
  Zpos d < 2 ^ 31 ->
  exists m e,
    getDistance T (Zpos d) = S754_finite false m e
    /\ Zpos (digits2_pos m) = 24
    /\ Zpos (digits2_pos d) - 30 <= e <= Zpos (digits2_pos d) - 25.
Proof.
  intros H. unfold getDistance, CInt.ulong_to_long, Target.long_bits.
  rewrite wrap_signed_32 by (change (2 ^ 31) with 2147483648 in H; lia).
  change (Zpos d =? 0) with false. cbv iota zeta.
  assert (G : exists mz ez,
             SFdiv (Target.double_prec T) (Target.double_emax T)
               (SFmul (Target.double_prec T) (Target.double_emax T)
                  (FP.of_Z (Target.double_prec T) (Target.double_emax T) (Zpos d))
                  (FP.literal (Target.double_prec T) (Target.double_emax T) 34 1000))
               (FP.of_Z (Target.double_prec T) (Target.double_emax T) 2)
             = S754_finite false mz ez
             /\ Zpos (digits2_pos mz) = Target.double_prec T
             /\ Zpos (digits2_pos d) - 6 - Target.double_prec T <= ez
                <= Zpos (digits2_pos d) - 2 - Target.double_prec T).
  { destruct T; cbn [Target.double_prec Target.double_emax].
    - eapply double_distance_normal; try reflexivity; lia.
    - eapply double_distance_normal; try reflexivity; lia. }
  destruct G as (mz & ez & Rz & Dz & Ez). rewrite Rz.
  assert (D0 : 1 <= Zpos (digits2_pos d) <= 31).
  { split; [lia |]. pose proof (digits2_pos_bounds d) as [L _].
    destruct (Z.le_gt_cases (Zpos (digits2_pos d)) 31) as [A | A]; [exact A |].
    assert (2 ^ 31 <= 2 ^ (Zpos (digits2_pos d) - 1))
      by (apply Z.pow_le_mono_r; lia). lia. }
  unfold F32.of_double, FP.convert.
  destruct (binary_round_normal F32.prec F32.emax ltac:(reflexivity) false mz ez)
    as (m & e & R & Dm & De).
  { unfold emin, F32.prec, F32.emax. lia. }
  { unfold F32.emax. lia. }
  rewrite R. exists m, e. split; [reflexivity |].
  unfold F32.prec in *. split; [exact Dm | lia].
Qed.

Lemma getDistance_finite (T : Target.t) (pulse : Z) :
  0 < pulse < 2 ^ 31 ->
  exists m e,
    getDistance T pulse = S754_finite false m e
    /\ F32.valid (getDistance T pulse) = true.
Proof.
  intros H. destruct pulse as [| d | d]; try lia.
  destruct (getDistance_magnitude T d) as (m & e & R & Dm & De); [lia |].
  assert (D0 : Zpos (digits2_pos d) <= 31).
  { pose proof (digits2_pos_bounds d) as [L _].
    destruct (Z.le_gt_cases (Zpos (digits2_pos d)) 31) as [A | A]; [exact A |].
    assert (2 ^ 31 <= 2 ^ (Zpos (digits2_pos d) - 1))
      by (apply Z.pow_le_mono_r; lia). lia. }
  exists m, e. split; [exact R |]. rewrite R.
  unfold F32.valid, valid_binary, bounded, canonical_mantissa, fexp, emin.
  unfold F32.prec, F32.emax.
  apply andb_true_iff. split; [apply Z.eqb_eq | apply Z.leb_le]; lia.
Qed.

(** C7.  For an echo length that fits a positive [long],
    [getDistance] returns -1 exactly when the length is 0, the value
    [pulseIn] reports on a timeout; for any other length it returns
    [duration * 0.034 / 2], computed in [double] and converted to
    [float], which is a number above 0; so -1 is the only value at or
    below 0 it ever returns. *)
Theorem getDistance_spec (T : Target.t) (pulse : Z) :
  0 <= pulse < 2 ^ 31 ->
  (getDistance T pulse = F32.of_int (-1) <-> pulse = 0)
  /\ (pulse <> 0 ->
      getDistance T pulse =
      F32.of_double
        (SFdiv (Target.double_prec T) (Target.double_emax T)
           (SFmul (Target.double_prec T) (Target.double_emax T)
              (FP.of_Z (Target.double_prec T) (Target.double_emax T) pulse)
              (FP.literal (Target.double_prec T) (Target.double_emax T) 34 1000))
           (FP.of_Z (Target.double_prec T) (Target.double_emax T) 2))
      /\ FP.lt_value (F32.of_int 0) (getDistance T pulse))
  /\ (FP.le_value (getDistance T pulse) (F32.of_int 0) ->
      getDistance T pulse = F32.of_int (-1)).
Proof.
  intros H.
  assert (Z0 : getDistance T 0 = F32.of_int (-1)) by (destruct T; reflexivity).
  assert (P : pulse <> 0 ->
              exists m e, getDistance T pulse = S754_finite false m e).
  { intros N. destruct (getDistance_finite T pulse) as (m & e & R & _); [lia |].
    exists m, e. exact R. }
  split; [| split].
  - split.
    + intros A. destruct (Z.eq_dec pulse 0) as [E | N]; [exact E | exfalso].
      destruct (P N) as (m & e & R). rewrite R in A. discriminate A.
    + intros ->. exact Z0.
  - intros N. split.
    + unfold getDistance, CInt.ulong_to_long, Target.long_bits.
      rewrite wrap_signed_32 by (change (2 ^ 31) with 2147483648 in H; lia).
      destruct (Z.eqb_spec pulse 0) as [A | _]; [contradiction | reflexivity].
    + destruct (P N) as (m & e & R). rewrite R, of_int_0.
      unfold FP.lt_value. cbn [FP.value FP.elt]. apply SF2Q_pos.
  - intros L. destruct (Z.eq_dec pulse 0) as [-> | N]; [exact Z0 | exfalso].
    destruct (P N) as (m & e & R). rewrite R, of_int_0 in L.
    unfold FP.le_value in L. cbn [FP.value FP.ele] in L.
    pose proof (SF2Q_pos m e). lra.
Qed.

Lemma getDistance_spec_witness :
  0 <= 882 < 2 ^ 31
  /\ (getDistance Target.AVR8 882 = F32.of_int (-1) <-> 882 = 0)
  /\ FP.lt_value (F32.of_int 0) (getDistance Target.AVR8 882).
Proof.
  assert (R : 0 <= 882 < 2 ^ 31) by (split; [lia | reflexivity]).
  destruct (getDistance_spec Target.AVR8 882 R) as (A & B & _).
  split; [exact R | split; [exact A |]].
  apply B. discriminate.
Defined.


(** * Further properties *)

(** ** More on the acceleration sum *)

Lemma wrap_signed_16_range (z : Z) :
  -32768 <= CInt.wrap_signed 16 z <= 32767.
Proof.
  unfold CInt.wrap_signed.
  change (2 ^ (16 - 1)) with 32768. change (2 ^ 16) with 65536.
  pose proof (Z.mod_pos_bound (z + 32768) 65536 ltac:(lia)). lia.
Qed.

Lemma wrap_signed_16_add_l (a b : Z) :
  CInt.wrap_signed 16 (CInt.wrap_signed 16 a + b) = CInt.wrap_signed 16 (a + b).
Proof.
  unfold CInt.wrap_signed.
  change (2 ^ (16 - 1)) with 32768. change (2 ^ 16) with 65536.
  f_equal.
  replace ((a + 32768) mod 65536 - 32768 + b + 32768)
    with ((a + 32768) mod 65536 + b) by lia.
  rewrite Zplus_mod_idemp_l. f_equal. lia.
Qed.

Lemma wrap_signed_16_add_r (a b : Z) :
  CInt.wrap_signed 16 (a + CInt.wrap_signed 16 b) = CInt.wrap_signed 16 (a + b).
Proof.
  rewrite Z.add_comm, wrap_signed_16_add_l. f_equal. lia.
Qed.

Lemma abs_AVR8_wrap (x : Z) :
  CInt.in_int16 x -> CInt.abs Target.AVR8 x = CInt.wrap_signed 16 (Z.abs x).
Proof.
  unfold CInt.in_int16, CInt.abs, CInt.int_neg. intros H.
  cbn [Target.int_bits].
  destruct (Z.ltb_spec 0 x).
  - rewrite wrap_signed_16 by lia. lia.
  - f_equal. lia.
Qed.

Lemma totalAccel_AVR8_wrap_signed (x y z : Z) :
  CInt.in_int16 x -> CInt.in_int16 y -> CInt.in_int16 z ->
  totalAccel Target.AVR8 x y z
  = CInt.wrap_signed 16 (Z.abs x + Z.abs y + Z.abs z).
Proof.
  intros Hx Hy Hz.
  unfold totalAccel, CInt.int_to_long, CInt.int_add, Target.long_bits.
  cbn [Target.int_bits].
  rewrite !abs_AVR8_wrap by assumption.
  rewrite (wrap_signed_16_add_l (Z.abs x)).
  rewrite (wrap_signed_16_add_r (Z.abs x)).
  rewrite (wrap_signed_16_add_l (Z.abs x + Z.abs y)).
  rewrite (wrap_signed_16_add_r (Z.abs x + Z.abs y)).
  apply wrap_signed_32.
  pose proof (wrap_signed_16_range (Z.abs x + Z.abs y + Z.abs z)). lia.
Qed.

(** X1.  On a board with a 16-bit [int], for all 16-bit readings,
    [totalAccel] is the sum of the absolute values reduced to a signed
    16-bit number: it lies between -32768 and 32767 whatever the sum. *)
Theorem totalAccel_AVR8_wraps (x y z : Z) :
  CInt.in_int16 x -> CInt.in_int16 y -> CInt.in_int16 z ->
  totalAccel Target.AVR8 x y z
  = CInt.wrap_signed 16 (Z.abs x + Z.abs y + Z.abs z)
  /\ -32768 <= totalAccel Target.AVR8 x y z <= 32767.
Proof.
  intros Hx Hy Hz.
  rewrite (totalAccel_AVR8_wrap_signed x y z Hx Hy Hz).
  split; [reflexivity | apply wrap_signed_16_range].
Qed.

Lemma totalAccel_AVR8_wraps_witness :
  CInt.in_int16 20000 /\ CInt.in_int16 0
  /\ totalAccel Target.AVR8 20000 20000 0
     = CInt.wrap_signed 16 (Z.abs 20000 + Z.abs 20000 + Z.abs 0).
Proof.
  assert (A : CInt.in_int16 20000) by (unfold CInt.in_int16; lia).
  assert (B : CInt.in_int16 0) by (unfold CInt.in_int16; lia).
  split; [exact A | split; [exact B |]].
  exact (proj1 (totalAccel_AVR8_wraps 20000 20000 0 A A B)).
Defined.

(** X2.  On a board with a 16-bit [int] the motion alert is raised for
    the sums of absolute values in 15001 .. 32767 and in 80537 .. 98303,
    and for no others: every sum from 32768 to 80536, and the sum 98304,
    goes unreported. *)
Theorem motionAlert_AVR8_iff (x y z : Z) :
  CInt.in_int16 x -> CInt.in_int16 y -> CInt.in_int16 z ->
  motionAlert (totalAccel Target.AVR8 x y z) = true <->
  15000 < Z.abs x + Z.abs y + Z.abs z <= 32767
  \/ 80536 < Z.abs x + Z.abs y + Z.abs z < 98304.
Proof.
  intros Hx Hy Hz.
  rewrite (totalAccel_AVR8_wrap_signed x y z Hx Hy Hz).
  unfold motionAlert, ACCEL_THRESHOLD. rewrite Z.ltb_lt.
  unfold CInt.in_int16 in *.
  set (S := Z.abs x + Z.abs y + Z.abs z).
  assert (R : 0 <= S <= 98304) by (unfold S; lia).
  unfold CInt.wrap_signed.
  change (2 ^ (16 - 1)) with 32768. change (2 ^ 16) with 65536.
  destruct (Z.le_gt_cases S 32767) as [A | A].
  - rewrite Z.mod_small by lia. lia.
  - destruct (Z.lt_ge_cases S 98304) as [B | B].
    + replace (S + 32768) with (S - 32768 + 1 * 65536) by lia.
      rewrite Z.mod_add by lia. rewrite Z.mod_small by lia. lia.
    + replace (S + 32768) with (0 + 2 * 65536) by lia.
      rewrite Z.mod_add by lia. rewrite Z.mod_small by lia. lia.
Qed.

Lemma motionAlert_AVR8_iff_witness :
  CInt.in_int16 6000
  /\ (motionAlert (totalAccel Target.AVR8 6000 6000 6000) = true <->
      15000 < Z.abs 6000 + Z.abs 6000 + Z.abs 6000 <= 32767
      \/ 80536 < Z.abs 6000 + Z.abs 6000 + Z.abs 6000 < 98304).
Proof.
  assert (A : CInt.in_int16 6000) by (unfold CInt.in_int16; lia).
  split; [exact A | exact (motionAlert_AVR8_iff 6000 6000 6000 A A A)].
Defined.

(** X3.  With a 32-bit [int], for all 16-bit readings, [totalAccel] is
    the sum of the absolute values, it is never negative, and the motion
    alert is raised exactly when that sum is above 15000. *)
Theorem totalAccel_Core32_exact (x y z : Z) :
  CInt.in_int16 x -> CInt.in_int16 y -> CInt.in_int16 z ->
  totalAccel Target.Core32 x y z = Z.abs x + Z.abs y + Z.abs z
  /\ 0 <= totalAccel Target.Core32 x y z
  /\ (motionAlert (totalAccel Target.Core32 x y z) = true <->
      15000 < Z.abs x + Z.abs y + Z.abs z).
Proof.
  intros Hx Hy Hz. rewrite totalAccel_Core32 by assumption.
  split; [reflexivity | split; [lia |]].
  unfold motionAlert, ACCEL_THRESHOLD. apply Z.ltb_lt.
Qed.

Lemma totalAccel_Core32_exact_witness :
  CInt.in_int16 (-32768)
  /\ totalAccel Target.Core32 (-32768) (-32768) (-32768)
     = Z.abs (-32768) + Z.abs (-32768) + Z.abs (-32768).
Proof.
  assert (A : CInt.in_int16 (-32768)) by (unfold CInt.in_int16; lia).
  split; [exact A |].
  exact (proj1 (totalAccel_Core32_exact (-32768) (-32768) (-32768) A A A)).
Defined.

(** ** Humidity, light and failed sensors *)

(** X4.  A humidity reading that is not a number raises no humidity
    alert; any other reading raises it exactly when it is below 30 or
    above 60, so that 30 and 60 themselves do not. *)
Theorem humidityAlert_iff (h : F32.float) :
  F32.valid h = true ->
  (FP.isnan h = true -> humidityAlert h = false)
  /\ (forall v, FP.value h = Some v ->
      (humidityAlert h = true <->
       FP.elt v (FP.Fin 30) \/ FP.elt (FP.Fin 60) v))
  /\ humidityAlert (F32.of_int 30) = false
  /\ humidityAlert (F32.of_int 60) = false.
Proof.
  intros V.
  assert (E : humidityAlert h = true <->
              FP.lt_value h (S754_finite false 15728640 (-19))
              \/ FP.lt_value (S754_finite false 15728640 (-18)) h).
  { unfold humidityAlert, HUMIDITY_MIN, HUMIDITY_MAX.
    rewrite of_int_30, of_int_60, orb_true_iff.
    rewrite F32_ltb_value, F32_gtb_value by (exact V || reflexivity).
    reflexivity. }
  split; [| split; [| split; reflexivity]].
  - intros N. destruct h; try discriminate N. reflexivity.
  - intros v Hv. rewrite E. unfold FP.lt_value. rewrite Hv.
    cbn [FP.value]. destruct v as [| q |]; cbn [FP.elt];
      rewrite ?value_30, ?value_60; reflexivity.
Qed.

Lemma humidityAlert_iff_witness :
  F32.valid (F32.of_int 61) = true
  /\ (forall v, FP.value (F32.of_int 61) = Some v ->
      (humidityAlert (F32.of_int 61) = true <->
       FP.elt v (FP.Fin 30) \/ FP.elt (FP.Fin 60) v)).
Proof.
  split; [reflexivity |].
  exact (proj1 (proj2 (humidityAlert_iff (F32.of_int 61) eq_refl))).
Defined.

(** X5.  Sensors that fail raise nothing by themselves: with the
    temperature and the humidity not a number and no echo, a pass in
    which the button is not pressed, the light level is at least 400
    and the acceleration sum at most 15000 triggers no alert. *)
Theorem failed_sensors_raise_nothing (T : Target.t) (light accel : Z) :
  400 <= light -> accel <= 15000 ->
  alertTriggered false
    {| temperature := S754_nan; humidity := S754_nan;
       distance := getDistance T 0;
       lightLevel := light; accelSum := accel |} = false.
Proof.
  intros L A. unfold alertTriggered. cbn [temperature humidity distance lightLevel accelSum].
  assert (D : distanceAlert (getDistance T 0) = false) by (destruct T; reflexivity).
  rewrite D. unfold lightAlert, motionAlert, LIGHT_THRESHOLD, ACCEL_THRESHOLD.
  destruct (Z.ltb_spec light 400); [lia |].
  destruct (Z.ltb_spec 15000 accel); [lia |]. reflexivity.
Qed.

Lemma failed_sensors_raise_nothing_witness :
  alertTriggered false
    {| temperature := S754_nan; humidity := S754_nan;
       distance := getDistance Target.AVR8 0;
       lightLevel := 700; accelSum := 0 |} = false.
Proof.
  apply (failed_sensors_raise_nothing Target.AVR8 700 0); lia.
Defined.

(** ** The obstacle alert in terms of the echo *)

Lemma echo_lengths_In (n : nat) (z : Z) :
  0 <= z < Z.of_nat n -> In z (echo_lengths n).
Proof.
  intros H. unfold echo_lengths. apply in_map_iff.
  exists (Z.to_nat z). split; [lia |]. apply in_seq. lia.
Qed.

Lemma echo_alert_checked (T : Target.t) :
  forallb (echo_alert_agrees T) (echo_lengths 2048) = true.
Proof. destruct T; vm_compute; reflexivity. Qed.

(** X6.  [getDistance] and the obstacle rule together: for an echo
    length that fits a positive [long], on either kind of board, the
    obstacle alert is raised exactly for the lengths from 1 to 1764
    microseconds. *)
Theorem obstacle_iff_echo (T : Target.t) (pulse : Z) :
  0 <= pulse < 2 ^ 31 ->
  distanceAlert (getDistance T pulse) = true <-> 1 <= pulse <= 1764.
Proof.
  intros H. destruct (Z.lt_ge_cases pulse 2048) as [S | B].
  - pose proof (echo_alert_checked T) as C.
    rewrite forallb_forall in C.
    specialize (C pulse (echo_lengths_In 2048 pulse ltac:(lia))).
    unfold echo_alert_agrees in C. apply Bool.eqb_prop in C. rewrite C.
    rewrite andb_true_iff, Z.leb_le, Z.leb_le. reflexivity.
  - destruct pulse as [| d | d]; try lia.
    destruct (getDistance_magnitude T d) as (m & e & R & Dm & De); [lia |].
    assert (D0 : 12 <= Zpos (digits2_pos d)).
    { pose proof (digits2_pos_bounds d) as [_ U].
      destruct (Z.le_gt_cases 12 (Zpos (digits2_pos d))) as [A | A]; [exact A |].
      assert (2 ^ Zpos (digits2_pos d) <= 2 ^ 11)
        by (apply Z.pow_le_mono_r; lia).
      change (2 ^ 11) with 2048 in *. lia. }
    split; [| lia]. intros A. exfalso.
    unfold distanceAlert, DISTANCE_THRESHOLD in A.
    rewrite R, of_int_30 in A. apply andb_true_iff in A. destruct A as [_ A].
    unfold F32.ltb, SFltb in A. cbn [SFcompare] in A.
    destruct (Z.compare_spec e (-19)) as [X | X | X];
      [lia | lia | discriminate A].
Qed.

Lemma obstacle_iff_echo_witness :
  0 <= 882 < 2 ^ 31
  /\ (distanceAlert (getDistance Target.AVR8 882) = true <-> 1 <= 882 <= 1764).
Proof.
  assert (R : 0 <= 882 < 2 ^ 31) by (split; [lia | reflexivity]).
  split; [exact R | exact (obstacle_iff_echo Target.AVR8 882 R)].
Defined.

(** ** More on the passes of [loop] *)

Lemma early_return_flag (g : globals) (r : readings) :
  early_return g r = true ->
  buttonPressed g = false /\ button r = HIGH /\ checkNow g r = false.
Proof.
  unfold early_return, pending, button_low. intros H.
  apply andb_true_iff in H. destruct H as [C P].
  apply negb_true_iff in C, P.
  destruct (button r); [discriminate P |]. repeat split; assumption.
Qed.

(** X7.  After a pass of [loop], whichever way it went and whatever
    the globals were, [buttonPressed] is false. *)
Theorem buttonPressed_false_after_loop
  (T : Target.t) (g : globals) (r : readings) :
  buttonPressed (fst (loop T g r)) = false.
Proof.
  destruct (early_return g r) eqn:E.
  - rewrite (loop_returns_early T g r E). cbn [fst].
    exact (proj1 (early_return_flag g r E)).
  - rewrite (loop_evaluates T g r E). reflexivity.
Qed.

Lemma ulong_sub_wrap (t0 t1 : Z) :
  0 <= t1 - t0 < 2 ^ 32 ->
  CInt.ulong_sub (CInt.wrap_unsigned 32 t1) (CInt.wrap_unsigned 32 t0)
  = t1 - t0.
Proof.
  intros H. unfold CInt.ulong_sub, CInt.wrap_unsigned, Target.long_bits.
  rewrite Zminus_mod_idemp_l, Zminus_mod_idemp_r.
  apply Z.mod_small. exact H.
Qed.

(** X8.  The interval test is right across the rollover of the
    clock: when [lastCheck] and the clock are the times [t0] and [t1]
    reduced to 32 bits and less than 2^32 ms lie between them,
    [checkNow] holds exactly when more than 500 ms do. *)
Theorem checkNow_across_rollover (g : globals) (r : readings) (t0 t1 : Z) :
  lastCheck g = CInt.wrap_unsigned 32 t0 ->
  millis_check r = CInt.wrap_unsigned 32 t1 ->
  0 <= t1 - t0 < 2 ^ 32 ->
  checkNow g r = true <-> 500 < t1 - t0.
Proof.
  intros L M H. unfold checkNow, CHECK_INTERVAL.
  rewrite L, M, ulong_sub_wrap by exact H. apply Z.ltb_lt.
Qed.

(** X9.  After a pass that evaluated, a pass in which the button is
    not pressed and the clock is at most 500 ms beyond the time stamped
    returns early and leaves the globals as they are. *)
Theorem no_evaluation_within_interval
  (T : Target.t) (g : globals) (r1 r2 : readings) :
  early_return g r1 = false ->
  button r2 = HIGH ->
  CInt.ulong_sub (millis_check r2) (millis_stamp r1) <= 500 ->
  loop T (fst (loop T g r1)) r2
  = (fst (loop T g r1), [ digitalRead BUTTON_PIN; millis ]).
Proof.
  intros E B I. apply loop_returns_early.
  rewrite (loop_evaluates T g r1 E). cbn [fst].
  unfold early_return, checkNow, pending, button_low, CHECK_INTERVAL.
  cbn [lastCheck buttonPressed]. rewrite B.
  destruct (Z.ltb_spec 500 (CInt.ulong_sub (millis_check r2) (millis_stamp r1)));
    [lia | reflexivity].
Qed.

(** X10.  A pass that reads the button as pressed waits the 100 ms
    of the debounce, reads the sensors whatever the clock says, and
    presents an alert whose report names the button. *)
Theorem button_press_alerts (T : Target.t) (g : globals) (r : readings) :
  button r = LOW ->
  loop T g r =
  ({| lastCheck := millis_stamp r; buttonPressed := false |},
   [ digitalRead BUTTON_PIN; delay 100; millis; millis ]
   ++ read_sensors_calls ++ present true (read_sensors T r))
  /\ In (Serial_println (PStr "🔘 Manual Button Triggered"))
        (snd (loop T g r)).
Proof.
  intros B.
  assert (P : pending g r = true) by (unfold pending, button_low; rewrite B; reflexivity).
  assert (E : early_return g r = false)
    by (unfold early_return; rewrite P; apply andb_false_r).
  assert (L : loop T g r =
    ({| lastCheck := millis_stamp r; buttonPressed := false |},
     [ digitalRead BUTTON_PIN; delay 100; millis; millis ]
     ++ read_sensors_calls ++ present true (read_sensors T r))).
  { rewrite (loop_evaluates T g r E), P.
    unfold button_calls, button_low, alertTriggered. rewrite B. reflexivity. }
  split; [exact L |]. rewrite L. cbn [snd].
  apply in_or_app. right. apply in_or_app. right.
  unfold present. apply in_or_app. right. apply in_or_app. left.
  unfold alert_report, when. right. left. reflexivity.
Qed.

Lemma checkNow_across_rollover_witness :
  lastCheck before_rollover = CInt.wrap_unsigned 32 (2 ^ 32 - 100)
  /\ millis_check after_rollover = CInt.wrap_unsigned 32 (2 ^ 32 + 901)
  /\ (checkNow before_rollover after_rollover = true <->
      500 < 2 ^ 32 + 901 - (2 ^ 32 - 100)).
Proof.
  split; [reflexivity | split; [reflexivity |]].
  apply (checkNow_across_rollover before_rollover after_rollover
           (2 ^ 32 - 100) (2 ^ 32 + 901)); [reflexivity | reflexivity |].
  split; [discriminate | reflexivity].
Defined.

Lemma no_evaluation_within_interval_witness :
  early_return globals_init button_down = false
  /\ button soon_after = HIGH
  /\ loop Target.AVR8 (fst (loop Target.AVR8 globals_init button_down)) soon_after
     = (fst (loop Target.AVR8 globals_init button_down),
        [ digitalRead BUTTON_PIN; millis ]).
Proof.
  split; [reflexivity | split; [reflexivity |]].
  apply (no_evaluation_within_interval Target.AVR8 globals_init
           button_down soon_after); [reflexivity | reflexivity |].
  discriminate.
Defined.

Lemma button_press_alerts_witness :
  button button_down = LOW
  /\ In (Serial_println (PStr "🔘 Manual Button Triggered"))
        (snd (loop Target.AVR8 globals_init button_down)).
Proof.
  split; [reflexivity |].
  exact (proj2 (button_press_alerts Target.AVR8 globals_init button_down
                  eq_refl)).
Defined.

(** ** The report of an alert *)

Lemma In_when (b : bool) (x y : event) : In x (when b [ y ]) <-> b = true /\ y = x.
Proof.
  destruct b; cbn; split; intros H.
  - destruct H as [H | []]. split; [reflexivity | exact H].
  - left. exact (proj2 H).
  - contradiction.
  - destruct H as [H _]. discriminate H.
Qed.

(** X11.  The report of an alert names exactly the reasons that
    fired: each of the six lines is printed if and only if its reason is
    set. *)
Theorem report_names_the_reasons (pressed : bool) (s : snapshot) :
  (In (Serial_println (PStr "🔘 Manual Button Triggered")) (present pressed s)
   <-> pressed = true)
  /\ (In (Serial_println (PStr "⚠️ Obstacle detected nearby!")) (present pressed s)
      <-> distanceAlert (distance s) = true)
  /\ (In (Serial_println (PStr "⚠️ Temperature out of range!")) (present pressed s)
      <-> tempAlert (temperature s) = true)
  /\ (In (Serial_println (PStr "⚠️ Low light detected!")) (present pressed s)
      <-> lightAlert (lightLevel s) = true)
  /\ (In (Serial_println (PStr "⚠️ Humidity uncomfortable!")) (present pressed s)
      <-> humidityAlert (humidity s) = true)
  /\ (In (Serial_println (PStr "⚠️ Fall detected!")) (present pressed s)
      <-> motionAlert (accelSum s) = true).
Proof.
  unfold present, alert_report.
  repeat split; intros H;
    repeat rewrite in_app_iff in *; repeat rewrite In_when in *;
    cbn [In alert_on alert_off] in *.
  all: try (repeat match goal with
                   | H : _ \/ _ |- _ => destruct H as [H | H]
                   | H : _ /\ _ |- _ => destruct H as [? H]
                   | H : False |- _ => contradiction
                   end; try discriminate; assumption).
  all: right; left; tauto.
Qed.

(** ** [setup] and the program as a whole *)



(** X12.  [setup] returns exactly when [display.begin] succeeds,
    whatever the connection test of the MPU6050 says; it then prints
    the ready message and leaves the display blank, without touching
    the LED or the buzzer. *)
Theorem setup_outcome (b : boot) :
  (snd (setup b) = Returns <-> display_begin_ok b = true)
  /\ (display_begin_ok b = true ->
      In (Serial_println (PStr "Smart Cane Ready.")) (fst (setup b))
      /\ forall h,
           led (settle h (fst (setup b))) = led h
           /\ buzzer (settle h (fst (setup b))) = buzzer h
           /\ oled_buffer (settle h (fst (setup b))) = []
           /\ oled_panel (settle h (fst (setup b))) = []).
Proof.
  unfold setup. destruct (display_begin_ok b); cbn [negb snd fst].
  - split; [split; reflexivity |]. intros _. split.
    + apply in_or_app. right. apply in_or_app. right.
      unfold setup_ready. right. right. left. reflexivity.
    + intros h. rewrite !settle_app. cbn. repeat split.
  - split; [split; discriminate | discriminate].
Qed.

Lemma setup_outcome_witness :
  display_begin_ok {| display_begin_ok := true; mpu_testConnection_ok := false |}
  = true
  /\ snd (setup {| display_begin_ok := true; mpu_testConnection_ok := false |})
     = Returns.
Proof.
  split; [reflexivity |].
  apply (proj1 (setup_outcome
                  {| display_begin_ok := true; mpu_testConnection_ok := false |})).
  reflexivity.
Defined.

Lemma reading_keeps_indicators (r : readings) (h : indicators) :
  settle h (button_calls r ++ [ millis; millis ] ++ read_sensors_calls) = h.
Proof.
  unfold button_calls, when. destruct (button_low r); reflexivity.
Qed.

Lemma loop_keeps_clear (T : Target.t) (g : globals) (r : readings) (h : indicators) :
  all_clear h -> all_clear (settle h (snd (loop T g r))).
Proof.
  intros C. destruct (early_return g r) eqn:E.
  - rewrite (loop_returns_early T g r E). exact C.
  - rewrite (loop_evaluates T g r E). cbn [snd].
    destruct (alertTriggered (pending g r) (read_sensors T r)); cbn [when].
    + unfold present. rewrite !app_assoc, settle_app. apply alert_off_clears.
    + rewrite app_nil_r, reading_keeps_indicators. exact C.
Qed.

(** X13.  When the display starts, the program is in [loop] after
    every step, [buttonPressed] is false between passes, and, started
    with the indicators off, it has them off again after every pass:
    LED low, buzzer silent, display blank. *)
Theorem run_stays_clear
  (T : Target.t) (b : boot) (env : nat -> readings) (n : nat) :
  display_begin_ok b = true ->
  at_phase (fst (run T b env (S n))) = Running
  /\ buttonPressed (vars (fst (run T b env (S n)))) = false
  /\ all_clear (settle dark (snd (run T b env (S n)))).
Proof.
  intros D. induction n as [| n IH].
  - cbn [run]. unfold step, power_on. cbn [at_phase vars].
    unfold setup. rewrite D. cbn [negb fst snd at_phase vars app].
    split; [reflexivity | split; [reflexivity |]].
    unfold all_clear. rewrite !settle_app. cbn. repeat split.
  - change (run T b env (S (S n)))
      with (let (m, done) := run T b env (S n) in
            let (m', calls) := step T b (env (S n)) m in
            (m', done ++ calls)).
    destruct (run T b env (S n)) as [m done]. cbn [fst snd] in IH.
    destruct IH as (Ph & _ & C).
    unfold step. rewrite Ph.
    pose proof (loop_keeps_clear T (vars m) (env (S n)) _ C) as K.
    destruct (loop T (vars m) (env (S n))) as [g calls] eqn:L.
    cbn [fst snd at_phase vars] in *.
    split; [reflexivity | split].
    + change g with (fst (g, calls)). rewrite <- L.
      destruct (early_return (vars m) (env (S n))) eqn:E.
      * rewrite (loop_returns_early T _ _ E). cbn [fst].
        exact (proj1 (early_return_flag _ _ E)).
      * rewrite (loop_evaluates T _ _ E). reflexivity.
    + rewrite settle_app. exact K.
Qed.

Lemma run_stays_clear_witness :
  display_begin_ok {| display_begin_ok := true; mpu_testConnection_ok := true |}
  = true
  /\ all_clear
       (settle dark
          (snd (run Target.AVR8
                  {| display_begin_ok := true; mpu_testConnection_ok := true |}
                  (fun _ => obstacle_near) 2))).
Proof.
  split; [reflexivity |].
  exact (proj2 (proj2 (run_stays_clear Target.AVR8
                         {| display_begin_ok := true; mpu_testConnection_ok := true |}
                         (fun _ => obstacle_near) 1 eq_refl))).
Defined.
